(** * The whiteboard block ([src/block.tsx]) as a Rocq model

    The component is a React function component that wires pointer and
    touch listeners of a [<canvas>] to immediate-mode strokes of its 2D
    context.  The model has three layers:

    - [JS]: JavaScript numbers are IEEE 754 binary64 values, so they are
      Rocq's primitive floats, with the same rounding; [parseInt] and
      [Object.is] are modelled on them.
    - [DOM]: the part of the canvas element, its 2D context and the
      input events that the component touches.
    - [Block]: the component itself.  Each callback of the source is a
      computation in a small state-and-exception monad over the objects a
      callback can reach; React's commit (state reduction, dependency
      comparison of hooks, effects) is a function on worlds. *)

From Stdlib Require Import ZArith List String Ascii Bool Lia.
From Stdlib Require Import Floats DecimalString.
Import ListNotations.

(** * JavaScript numbers and the two built-ins the component calls *)

Module JS.

Definition number := float.

(** The Number value of a mathematical integer: round to nearest, ties
    to even (exact below [2^53]). *)
Definition number_of_Z (z : Z) : number :=
  SF2Prim (binary_normalize prec emax z 0%Z false).

(** [Object.is] on numbers: [NaN] is itself, [+0] is not [-0]. *)
Definition Object_is (a b : number) : bool := PrimFloat.Leibniz.eqb a b.

Definition isFinite (a : number) : bool := PrimFloat.is_finite a.

(** ** [parseInt(string)] with no radix argument *)

(** Strings are sequences of bytes, the UTF-8 encoding of the text. *)
Definition utf8 (bytes : list nat) : string :=
  fold_right (fun b s => String (ascii_of_nat b) s) EmptyString bytes.

(** [StrWhiteSpaceChar]: the white space code points (TAB, VT, FF, SP,
    NBSP, ZWNBSP and the other space separators) and the line
    terminators (LF, CR, LS, PS). *)
Definition whiteSpace : list string :=
  map utf8
    [ [9]; [11]; [12]; [32]; [194; 160]; [239; 187; 191];
      [225; 154; 128];
      [226; 128; 128]; [226; 128; 129]; [226; 128; 130]; [226; 128; 131];
      [226; 128; 132]; [226; 128; 133]; [226; 128; 134]; [226; 128; 135];
      [226; 128; 136]; [226; 128; 137]; [226; 128; 138];
      [226; 128; 175]; [226; 129; 159]; [227; 128; 128];
      [10]; [13]; [226; 128; 168]; [226; 128; 169] ]%nat.

(** [s] without the white space character it starts with, if any. *)
Definition dropWhiteSpace (s : string) : option string :=
  match find (fun ws => String.prefix ws s) whiteSpace with
  | Some ws => Some (substring (String.length ws) (String.length s - String.length ws) s)
  | None => None
  end.

Fixpoint trimFuel (fuel : nat) (s : string) : string :=
  match fuel with
  | O => s
  | S fuel' =>
      match dropWhiteSpace s with
      | Some r => trimFuel fuel' r
      | None => s
      end
  end.

(** No string holds more white space characters than bytes. *)
Definition trimStart (s : string) : string := trimFuel (String.length s) s.

(** Value of a character as a digit: [0-9], then [a-z] or [A-Z] from ten. *)
Definition digitValue (c : ascii) : option Z :=
  let n := Z.of_nat (nat_of_ascii c) in
  if ((48 <=? n) && (n <=? 57))%Z then Some (n - 48)%Z
  else if ((97 <=? n) && (n <=? 122))%Z then Some (n - 87)%Z
  else if ((65 <=? n) && (n <=? 90))%Z then Some (n - 55)%Z
  else None.

(** The longest prefix of radix-[r] digits, as a mathematical integer;
    [acc] is [None] until a digit has been read. *)
Fixpoint readDigits (r : Z) (s : string) (acc : option Z) : option Z :=
  match s with
  | String c rest =>
      match digitValue c with
      | Some d =>
          if (d <? r)%Z
          then readDigits r rest
                 (Some (match acc with Some a => a * r + d | None => d end)%Z)
          else acc
      | None => acc
      end
  | EmptyString => acc
  end.

Definition parseInt (input : string) : number :=
  let s := trimStart input in
  let '(negative, s) :=
    match s with
    | String "-"%char r => (true, r)
    | String "+"%char r => (false, r)
    | _ => (false, s)
    end in
  let '(radix, s) :=
    match s with
    | String "0"%char (String "x"%char r) => (16%Z, r)
    | String "0"%char (String "X"%char r) => (16%Z, r)
    | _ => (10%Z, s)
    end in
  match readDigits radix s None with
  | None => nan
  | Some n => if negative then (- number_of_Z n)%float else number_of_Z n
  end.

End JS.

Import JS.

(** * The DOM objects the component touches *)

Module DOM.

Inductive LineCap := butt | round | square.
Inductive LineJoin := miter | join_round | bevel.

Record Point := { px : number; py : number }.

(** A stroke as [stroke()] burns it into the bitmap: the path at that
    moment with the style, width, cap and join of that moment. *)
Record Stroke := {
  stroke_path : list (list Point);
  stroke_style : string;
  stroke_width : number;
  stroke_cap : LineCap;
  stroke_join : LineJoin
}.

(** The output bitmap is kept as the paint operations applied to it since
    it was last transparent everywhere; the empty list is the blank
    bitmap.  Rasterisation is not modelled. *)
Inductive PaintOp :=
| Stroked (s : Stroke)
| Erased (x y w h : number).

Definition Bitmap := list PaintOp.

Record Context2D := {
  strokeStyle : string;
  lineWidth : number;
  lineCap : LineCap;
  lineJoin : LineJoin;
  path : list (list Point);
  bitmap : Bitmap
}.

(** The context in its default state, on a transparent bitmap. *)
Definition defaultContext : Context2D :=
  {| strokeStyle := "#000000"; lineWidth := 1%float; lineCap := butt;
     lineJoin := miter; path := []; bitmap := [] |}.

Module DOMRect.
Record t := make { left : number; top : number; width : number; height : number }.
End DOMRect.

(** A canvas element: its buffer size, the box it is laid out in (what
    [getBoundingClientRect] returns) and its 2D context, [None] when
    [getContext('2d')] returns [null]. *)
Module Canvas.
Record t := make {
  width : number;
  height : number;
  boundingClientRect : DOMRect.t;
  context2d : option Context2D
}.
End Canvas.

Module Touch.
Record t := make { clientX : number; clientY : number }.
End Touch.

(** [MouseEvent | TouchEvent]; the source tells them apart with
    ['touches' in e]. *)
Inductive Event :=
| MouseEvent (clientX clientY : number)
| TouchEvent (touches : list Touch.t).

(** ** Methods and setters of the 2D context *)

Definition beginPath (c : Context2D) : Context2D :=
  {| strokeStyle := strokeStyle c; lineWidth := lineWidth c; lineCap := lineCap c;
     lineJoin := lineJoin c; path := []; bitmap := bitmap c |}.

Definition set_path (p : list (list Point)) (c : Context2D) : Context2D :=
  {| strokeStyle := strokeStyle c; lineWidth := lineWidth c; lineCap := lineCap c;
     lineJoin := lineJoin c; path := p; bitmap := bitmap c |}.

Definition set_bitmap (b : Bitmap) (c : Context2D) : Context2D :=
  {| strokeStyle := strokeStyle c; lineWidth := lineWidth c; lineCap := lineCap c;
     lineJoin := lineJoin c; path := path c; bitmap := b |}.

(** [moveTo] and [lineTo] return at once on an infinite or NaN argument. *)
Definition moveTo (x y : number) (c : Context2D) : Context2D :=
  if isFinite x && isFinite y
  then set_path (path c ++ [[ {| px := x; py := y |} ]]) c
  else c.

(** Append a point to the last subpath. *)
Fixpoint extendLast (p : Point) (subpaths : list (list Point)) : list (list Point) :=
  match subpaths with
  | [] => [[p]]
  | [sp] => [sp ++ [p]]
  | sp :: rest => sp :: extendLast p rest
  end.

(** [lineTo] on a path with no subpath only starts one at the point. *)
Definition lineTo (x y : number) (c : Context2D) : Context2D :=
  if isFinite x && isFinite y
  then set_path (extendLast {| px := x; py := y |} (path c)) c
  else c.

(** The style is kept as the string it was given (every value the
    component assigns is a [#rrggbb] palette entry). *)
Definition set_strokeStyle (v : string) (c : Context2D) : Context2D :=
  {| strokeStyle := v; lineWidth := lineWidth c; lineCap := lineCap c;
     lineJoin := lineJoin c; path := path c; bitmap := bitmap c |}.

(** Zero, negative, infinite and NaN widths are ignored. *)
Definition set_lineWidth (v : number) (c : Context2D) : Context2D :=
  if isFinite v && (0 <? v)%float
  then {| strokeStyle := strokeStyle c; lineWidth := v; lineCap := lineCap c;
          lineJoin := lineJoin c; path := path c; bitmap := bitmap c |}
  else c.

Definition set_lineCap (v : LineCap) (c : Context2D) : Context2D :=
  {| strokeStyle := strokeStyle c; lineWidth := lineWidth c; lineCap := v;
     lineJoin := lineJoin c; path := path c; bitmap := bitmap c |}.

Definition set_lineJoin (v : LineJoin) (c : Context2D) : Context2D :=
  {| strokeStyle := strokeStyle c; lineWidth := lineWidth c; lineCap := lineCap c;
     lineJoin := v; path := path c; bitmap := bitmap c |}.

Definition stroke (c : Context2D) : Context2D :=
  set_bitmap
    (bitmap c ++
     [Stroked {| stroke_path := path c; stroke_style := strokeStyle c;
                 stroke_width := lineWidth c; stroke_cap := lineCap c;
                 stroke_join := lineJoin c |}]) c.

(** [clearRect(x, y, w, h)] on a bitmap of [bw] by [bh] pixels, with the
    identity transform and no clip (the component sets neither): nothing
    on an infinite or NaN argument; otherwise the pixels of the rectangle
    become transparent.  A rectangle that covers the bitmap leaves it
    blank, and so does any erasure of a blank bitmap. *)
Definition covers (bw bh x y w h : number) : bool :=
  ((x <=? 0) && (y <=? 0) && (bw <=? x + w) && (bh <=? y + h))%float.

Definition clearRect (bw bh x y w h : number) (c : Context2D) : Context2D :=
  if isFinite x && isFinite y && isFinite w && isFinite h
  then
    if covers bw bh x y w h then set_bitmap [] c
    else match bitmap c with
         | [] => c
         | ops => set_bitmap (ops ++ [Erased x y w h]) c
         end
  else c.

(** ** The canvas element *)

(** WebIDL conversion of a number to [unsigned long]: NaN, zeros and
    infinities give 0, other numbers are truncated toward zero and
    reduced modulo [2^32]. *)
Definition toUnsignedLong (v : number) : Z :=
  match Prim2SF v with
  | S754_finite s m e => (cond_Zopp s (Z.shiftl (Zpos m) e) mod 4294967296)%Z
  | _ => 0%Z
  end.

(** Assigning [canvas.width] or [canvas.height].  The attribute reflects
    a non-negative integer with a default ([300] and [150]) taken when
    the value is above [2^31 - 1].  Setting either attribute, also to the
    value it already has, sets the bitmap dimensions anew: the context
    goes back to its default state and the bitmap is cleared to
    transparent black. *)
Definition reflected (fallback : Z) (v : number) : number :=
  let n := toUnsignedLong v in
  number_of_Z (if (n <=? 2147483647)%Z then n else fallback).

Definition resetContext (c : option Context2D) : option Context2D :=
  match c with
  | Some _ => Some defaultContext
  | None => None
  end.

Definition set_width (v : number) (c : Canvas.t) : Canvas.t :=
  {| Canvas.width := reflected 300 v; Canvas.height := Canvas.height c;
     Canvas.boundingClientRect := Canvas.boundingClientRect c;
     Canvas.context2d := resetContext (Canvas.context2d c) |}.

Definition set_height (v : number) (c : Canvas.t) : Canvas.t :=
  {| Canvas.width := Canvas.width c; Canvas.height := reflected 150 v;
     Canvas.boundingClientRect := Canvas.boundingClientRect c;
     Canvas.context2d := resetContext (Canvas.context2d c) |}.

Definition set_context (k : Context2D) (c : Canvas.t) : Canvas.t :=
  {| Canvas.width := Canvas.width c; Canvas.height := Canvas.height c;
     Canvas.boundingClientRect := Canvas.boundingClientRect c;
     Canvas.context2d := Some k |}.

Definition set_boundingClientRect (r : DOMRect.t) (c : Canvas.t) : Canvas.t :=
  {| Canvas.width := Canvas.width c; Canvas.height := Canvas.height c;
     Canvas.boundingClientRect := r;
     Canvas.context2d := Canvas.context2d c |}.

(** ** [postMessage] *)

Inductive Window := self | parent.

Record Message := { type : string; blockId : string; completed : bool }.

Record Posted := { target : Window; data : Message; targetOrigin : string }.

End DOM.

Import DOM.

(** * The component *)

Module Block.

(** ** Props and state *)

(** [BlockProps]: each prop may be left out. *)
Record BlockProps := {
  title : option string;
  width : option number;
  height : option number
}.

(** The props after the destructuring defaults of the parameter list. *)
Record Props := { p_title : string; p_width : number; p_height : number }.

Definition orDefault {A} (d : A) (o : option A) : A :=
  match o with Some a => a | None => d end.

Definition destructure (p : BlockProps) : Props :=
  {| p_title := orDefault "Simple Whiteboard"%string (title p);
     p_width := orDefault 800%float (width p);
     p_height := orDefault 600%float (height p) |}.

Record Position := { x : number; y : number }.

(** The four [useState] cells. *)
Record State := {
  isDrawing : bool;
  currentColor : string;
  brushSize : number;
  lastPos : Position
}.

Definition initialState : State :=
  {| isDrawing := false; currentColor := "#000000"; brushSize := 3%float;
     lastPos := {| x := 0%float; y := 0%float |} |}.

(** Color palette *)
Definition colors : list string :=
  [ "#000000"; "#FF0000"; "#00FF00"; "#0000FF"; "#FFFF00";
    "#FF00FF"; "#00FFFF"; "#FFA500"; "#800080"; "#008000";
    "#800000"; "#808080"; "#FFC0CB"; "#A52A2A"; "#FFFFFF" ]%string.

(** A call of one of the four state setters.  A callback does not change
    the state it closed over: its calls are queued and reduced when React
    renders again. *)
Inductive Update :=
| setIsDrawing (b : bool)
| setCurrentColor (c : string)
| setBrushSize (n : number)
| setLastPos (p : Position).

(** ** What a callback can reach *)

Record Heap := {
  canvasRef : option Canvas.t;      (* canvasRef.current *)
  listening : bool;                 (* the seven listeners are on the canvas *)
  defaultPrevented : bool;          (* of the event being handled *)
  queue : list Update;              (* setter calls, oldest first *)
  posted : list Posted              (* postMessage calls, oldest first *)
}.

Inductive Completion (A : Type) :=
| Normal (a : A) (h : Heap)
| TypeError (h : Heap).

Arguments Normal {A} a h.
Arguments TypeError {A} h.

Definition M (A : Type) := Heap -> Completion A.

Definition ret {A} (a : A) : M A := fun h => Normal a h.

Definition bind {A B} (m : M A) (k : A -> M B) : M B :=
  fun h => match m h with
           | Normal a h' => k a h'
           | TypeError h' => TypeError h'
           end.

Declare Scope js_scope.
Delimit Scope js_scope with js.
Notation "'let*' v ':=' m 'in' k" := (bind m (fun v => k))
  (at level 10, v name, m at level 100, k at level 200) : js_scope.
Notation "m ';;' k" := (bind m (fun _ => k))
  (at level 100, k at level 200, right associativity) : js_scope.
Local Open Scope js_scope.

(** The heap a computation leaves, whether it returned or threw. *)
Definition heapOf {A} (c : Completion A) : Heap :=
  match c with Normal _ h' => h' | TypeError h' => h' end.

(** Field updates of the heap. *)
Definition set_canvasRef (c : option Canvas.t) (h : Heap) : Heap :=
  {| canvasRef := c; listening := listening h;
     defaultPrevented := defaultPrevented h; queue := queue h; posted := posted h |}.

Definition set_listening (b : bool) (h : Heap) : Heap :=
  {| canvasRef := canvasRef h; listening := b;
     defaultPrevented := defaultPrevented h; queue := queue h; posted := posted h |}.

Definition set_defaultPrevented (b : bool) (h : Heap) : Heap :=
  {| canvasRef := canvasRef h; listening := listening h;
     defaultPrevented := b; queue := queue h; posted := posted h |}.

Definition enqueue (u : Update) (h : Heap) : Heap :=
  {| canvasRef := canvasRef h; listening := listening h;
     defaultPrevented := defaultPrevented h; queue := queue h ++ [u];
     posted := posted h |}.

Definition post (m : Posted) (h : Heap) : Heap :=
  {| canvasRef := canvasRef h; listening := listening h;
     defaultPrevented := defaultPrevented h; queue := queue h;
     posted := posted h ++ [m] |}.

Definition readCanvasRef : M (option Canvas.t) := fun h => Normal (canvasRef h) h.

Definition writeCanvas (c : Canvas.t) : M unit :=
  fun h => Normal tt (set_canvasRef (Some c) h).

(** [e.preventDefault()] *)
Definition preventDefault : M unit :=
  fun h => Normal tt (set_defaultPrevented true h).

(** A call of a state setter. *)
Definition call (u : Update) : M unit :=
  fun h => Normal tt (enqueue u h).

Definition postMessage (w : Window) (m : Message) (origin : string) : M unit :=
  fun h => Normal tt (post {| target := w; data := m; targetOrigin := origin |} h).

Definition setListening (b : bool) : M unit :=
  fun h => Normal tt (set_listening b h).

(** A method call or property assignment on the context object [ctx]:
    a [TypeError] if there is no such object. *)
Definition onContext (f : Context2D -> Context2D) : M unit :=
  let* canvas := readCanvasRef in
  match canvas with
  | Some c =>
      match Canvas.context2d c with
      | Some k => writeCanvas (set_context (f k) c)
      | None => fun h => TypeError h
      end
  | None => fun h => TypeError h
  end.

(** A property assignment on the element [canvas]. *)
Definition onCanvas (f : Canvas.t -> Canvas.t) : M unit :=
  let* canvas := readCanvasRef in
  match canvas with
  | Some c => writeCanvas (f c)
  | None => fun h => TypeError h
  end.

(** [touches[0]], whose [clientX] is then read: a [TypeError] on the
    empty list. *)
Definition item0 (touches : list Touch.t) : M Touch.t :=
  match touches with
  | t :: _ => ret t
  | [] => fun h => TypeError h
  end.

(** ** The callbacks, in the order of the source *)

(** Get canvas context *)
Definition getContext : M (option Context2D) :=
  let* canvas := readCanvasRef in
  ret (match canvas with
       | Some c => Canvas.context2d c
       | None => None
       end).

(** Get mouse/touch position relative to canvas *)
Definition getPosition (e : Event) : M Position :=
  let* canvas := readCanvasRef in
  match canvas with
  | None => ret {| x := 0%float; y := 0%float |}
  | Some canvas =>
      let rect := Canvas.boundingClientRect canvas in
      let scaleX := (Canvas.width canvas / DOMRect.width rect)%float in
      let scaleY := (Canvas.height canvas / DOMRect.height rect)%float in
      match e with
      | TouchEvent touches =>
          let* t := item0 touches in
          ret {| x := ((Touch.clientX t - DOMRect.left rect) * scaleX)%float;
                 y := ((Touch.clientY t - DOMRect.top rect) * scaleY)%float |}
      | MouseEvent clientX clientY =>
          ret {| x := ((clientX - DOMRect.left rect) * scaleX)%float;
                 y := ((clientY - DOMRect.top rect) * scaleY)%float |}
      end
  end.

(** Start drawing *)
Definition startDrawing (e : Event) : M unit :=
  preventDefault ;;
  let* pos := getPosition e in
  call (setIsDrawing true) ;;
  call (setLastPos pos).

(** Draw line; [s] is the state of the render that created the callback
    (its dependency list names all four cells it reads). *)
Definition draw (s : State) (e : Event) : M unit :=
  if negb (isDrawing s) then ret tt else
  preventDefault ;;
  let* ctx := getContext in
  match ctx with
  | None => ret tt
  | Some _ =>
      let* currentPos := getPosition e in
      onContext beginPath ;;
      onContext (moveTo (x (lastPos s)) (y (lastPos s))) ;;
      onContext (lineTo (x currentPos) (y currentPos)) ;;
      onContext (set_strokeStyle (currentColor s)) ;;
      onContext (set_lineWidth (brushSize s)) ;;
      onContext (set_lineCap round) ;;
      onContext (set_lineJoin join_round) ;;
      onContext stroke ;;
      call (setLastPos currentPos)
  end.

(** Stop drawing *)
Definition stopDrawing : M unit :=
  call (setIsDrawing false).

(** Clear canvas *)
Definition clearCanvas : M unit :=
  let* ctx := getContext in
  let* canvas := readCanvasRef in
  match ctx, canvas with
  | Some _, Some canvas =>
      onContext (clearRect (Canvas.width canvas) (Canvas.height canvas)
                   0%float 0%float (Canvas.width canvas) (Canvas.height canvas))
  | _, _ => ret tt
  end.

(** The palette buttons: [onClick={() => setCurrentColor(color)}]. *)
Definition onColorClick (color : string) : M unit :=
  call (setCurrentColor color).

(** The slider: [onChange={(e) => setBrushSize(parseInt(e.target.value))}]. *)
Definition onBrushChange (value : string) : M unit :=
  call (setBrushSize (parseInt value)).

(** ** The two effects *)

(** Set up canvas.  The listeners it adds call [startDrawing], [draw]
    and [stopDrawing] of the same render; [listening] records that they
    are on the canvas. *)
Definition setupEffect (p : Props) : M unit :=
  let* canvas := readCanvasRef in
  match canvas with
  | None => ret tt
  | Some _ =>
      let* ctx := getContext in
      match ctx with
      | None => ret tt
      | Some _ =>
          onCanvas (set_width (p_width p)) ;;
          onCanvas (set_height (p_height p)) ;;
          onContext (set_lineCap round) ;;
          onContext (set_lineJoin join_round) ;;
          setListening true
      end
  end.

(** The function the set-up effect returns; React calls it before the
    effect runs again.  There is none when the effect returned early,
    and then no listener is on the canvas either. *)
Definition setupCleanup : M unit := setListening false.

Definition completionMessage : Message :=
  {| type := "BLOCK_COMPLETION"; blockId := "685334c2157dfa0de308d307";
     completed := true |}.

(** Send completion event when user starts drawing *)
Definition completionEffect (s : State) : M unit :=
  if isDrawing s then
    postMessage self completionMessage "*" ;;
    postMessage parent completionMessage "*"
  else ret tt.

(** ** React: rendering, commits and effects *)

(** A mounted component between two events: the props it was given, the
    state of its last render, the canvas behind [canvasRef], whether the
    listeners of the last set-up effect are on it, and every message
    posted so far.  A callback always belongs to the last render:
    each event is handled, and the render it causes committed with its
    effects, before the next event. *)
Record World := {
  props : Props;
  state : State;
  element : option Canvas.t;
  attached : bool;
  outbox : list Posted
}.

Definition reducer (s : State) (u : Update) : State :=
  match u with
  | setIsDrawing b =>
      {| isDrawing := b; currentColor := currentColor s;
         brushSize := brushSize s; lastPos := lastPos s |}
  | setCurrentColor c =>
      {| isDrawing := isDrawing s; currentColor := c;
         brushSize := brushSize s; lastPos := lastPos s |}
  | setBrushSize n =>
      {| isDrawing := isDrawing s; currentColor := currentColor s;
         brushSize := n; lastPos := lastPos s |}
  | setLastPos p =>
      {| isDrawing := isDrawing s; currentColor := currentColor s;
         brushSize := brushSize s; lastPos := p |}
  end.

Definition reduce (s : State) (q : list Update) : State := fold_left reducer q s.

Definition replacesLastPos (u : Update) : bool :=
  match u with setLastPos _ => true | _ => false end.

(** Whether [useCallback] returns a new [draw]: one of its dependencies
    [isDrawing, lastPos, currentColor, brushSize] is not [Object.is] its
    value in the last render ([getContext] and [getPosition] never
    change).  [lastPos] is an object, and every argument of [setLastPos]
    is a new object literal of [getPosition], never the object in the
    state, so any call of it changes that dependency. *)
Definition drawChanged (s : State) (q : list Update) : bool :=
  negb (Bool.eqb (isDrawing s) (isDrawing (reduce s q)))
  || existsb replacesLastPos q
  || negb (String.eqb (currentColor s) (currentColor (reduce s q)))
  || negb (Object_is (brushSize s) (brushSize (reduce s q))).

(** The effects of the render that follows a callback.  The set-up
    effect depends on [width, height, startDrawing, draw, stopDrawing],
    of which only [draw] changes while the props stay; its clean-up runs
    first.  The completion effect depends on [isDrawing]. *)
Definition effects (p : Props) (s : State) (q : list Update) : M unit :=
  (if drawChanged s q then setupCleanup ;; setupEffect p else ret tt) ;;
  (if negb (Bool.eqb (isDrawing s) (isDrawing (reduce s q)))
   then completionEffect (reduce s q) else ret tt).

Definition commit (w : World) (h : Heap) : World :=
  let h' := heapOf (effects (props w) (state w) (queue h) h) in
  {| props := props w;
     state := reduce (state w) (queue h);
     element := canvasRef h';
     attached := listening h';
     outbox := outbox w ++ posted h' |}.

Definition enter (w : World) : Heap :=
  {| canvasRef := element w; listening := attached w;
     defaultPrevented := false; queue := []; posted := [] |}.

(** Run a callback of the last render, whatever it returns or throws,
    then commit. *)
Definition handle (k : State -> M unit) (w : World) : World :=
  commit w (heapOf (k (state w) (enter w))).

(** The first render: both effects run. *)
Definition mount (p : BlockProps) (el : option Canvas.t) : World :=
  let h := heapOf ((setupEffect (destructure p) ;; completionEffect initialState)
                     {| canvasRef := el; listening := false;
                        defaultPrevented := false; queue := []; posted := [] |}) in
  {| props := destructure p; state := initialState;
     element := canvasRef h; attached := listening h; outbox := posted h |}.

(** What the render shows of the props: the [<h1>]. *)
Definition heading (w : World) : string := p_title (props w).

(** ** Events *)

Inductive EventType :=
| mousedown | mousemove | mouseup | mouseleave
| touchstart | touchmove | touchend.

(** The listener the set-up effect adds for each type. *)
Definition listener (s : State) (t : EventType) (e : Event) : M unit :=
  match t with
  | mousedown | touchstart => startDrawing e
  | mousemove | touchmove => draw s e
  | mouseup | mouseleave | touchend => stopDrawing
  end.

(** The slider is [<input type="range" min="1" max="20">]: the value it
    reports is the decimal string of an integer of that range, whatever
    the user does with it. *)
Definition sliderMin : Z := 1.
Definition sliderMax : Z := 20.

Definition sliderValue (n : Z) : string :=
  NilZero.string_of_int (Z.to_int (Z.max sliderMin (Z.min sliderMax n))).

Inductive Action :=
| Dispatch (t : EventType) (e : Event)   (* an event reaches the canvas *)
| ClickColor (i : nat)                   (* the palette button number i *)
| Slide (n : Z)                          (* the slider is dragged towards n *)
| ClickClear                             (* the Clear Canvas button *)
| Layout (r : DOMRect.t).                (* the page lays the canvas out anew *)

Definition step (a : Action) (w : World) : World :=
  match a with
  | Dispatch t e =>
      if attached w then handle (fun s => listener s t e) w else w
  | ClickColor i =>
      match nth_error colors i with
      | Some color => handle (fun _ => onColorClick color) w
      | None => w
      end
  | Slide n => handle (fun _ => onBrushChange (sliderValue n)) w
  | ClickClear => handle (fun _ => clearCanvas) w
  | Layout r =>
      {| props := props w; state := state w;
         element := option_map (set_boundingClientRect r) (element w);
         attached := attached w; outbox := outbox w |}
  end.

Definition run (acts : list Action) (w : World) : World :=
  fold_left (fun w a => step a w) acts w.

(** The worlds a mounted component can be in. *)
Inductive reachable : World -> Prop :=
| reach_mount (p : BlockProps) (el : option Canvas.t) : reachable (mount p el)
| reach_step (a : Action) (w : World) : reachable w -> reachable (step a w).

(** A canvas element as React creates it, laid out in [r]: the default
    300 by 150 buffer; [ok] says whether [getContext('2d')] gives a
    context. *)
Definition createCanvas (r : DOMRect.t) (ok : bool) : Canvas.t :=
  {| Canvas.width := 300%float; Canvas.height := 150%float;
     Canvas.boundingClientRect := r;
     Canvas.context2d := if ok then Some defaultContext else None |}.

End Block.

Import Block.

Open Scope float_scope.

(** * Vocabulary of the statements *)

(** A [spec_float] that is a zero or a finite number. *)
Inductive SFfinite : spec_float -> Prop :=
| SFfinite_zero s : SFfinite (S754_zero s)
| SFfinite_num s m e : SFfinite (S754_finite s m e).

(** A [spec_float] that is a zero, a finite number or an infinity of
    sign [s]. *)
Inductive signed (s : bool) : spec_float -> Prop :=
| signed_zero : signed s (S754_zero s)
| signed_finite m e : signed s (S754_finite s m e)
| signed_infinity : signed s (S754_infinity s).

(** The client coordinates [getPosition] reads off an event: those of the
    event itself, or of [touches[0]]. *)
Definition clientPoint (e : Event) : option (number * number) :=
  match e with
  | MouseEvent clientX clientY => Some (clientX, clientY)
  | TouchEvent (t :: _) => Some (Touch.clientX t, Touch.clientY t)
  | TouchEvent [] => None
  end.

(** Buffer size over rendered size, per axis. *)
Definition scaleX (c : Canvas.t) : number :=
  (Canvas.width c / DOMRect.width (Canvas.boundingClientRect c))%float.

Definition scaleY (c : Canvas.t) : number :=
  (Canvas.height c / DOMRect.height (Canvas.boundingClientRect c))%float.

(** Client coordinates in the pixel space of the canvas [c]. *)
Definition toSurface (c : Canvas.t) (cx cy : number) : Position :=
  {| x := ((cx - DOMRect.left (Canvas.boundingClientRect c)) * scaleX c)%float;
     y := ((cy - DOMRect.top (Canvas.boundingClientRect c)) * scaleY c)%float |}.

Definition origin : Position := {| x := 0%float; y := 0%float |}.

Definition finitePosition (p : Position) : bool := isFinite (x p) && isFinite (y p).

(** The context [getContext] returns in a heap. *)
Definition contextOf (h : Heap) : option Context2D :=
  match canvasRef h with
  | Some c => Canvas.context2d c
  | None => None
  end.

(** What is on the drawing surface of a world; nothing when there is no
    surface. *)
Definition surface (w : World) : Bitmap :=
  match contextOf (enter w) with
  | Some k => bitmap k
  | None => []
  end.

(** A straight stroke from [a] to [b] with round cap and join. *)
Definition segment (a b : Position) (color : string) (width : number) : PaintOp :=
  Stroked {| stroke_path := [[ {| px := x a; py := y a |}; {| px := x b; py := y b |} ]];
             stroke_style := color; stroke_width := width;
             stroke_cap := round; stroke_join := join_round |}.

(** The context calls of [draw], from [beginPath] to [stroke]. *)
Definition strokeTo (s : State) (p : Position) (k : Context2D) : Context2D :=
  stroke
    (set_lineJoin join_round
       (set_lineCap round
          (set_lineWidth (brushSize s)
             (set_strokeStyle (currentColor s)
                (lineTo (x p) (y p)
                   (moveTo (x (lastPos s)) (y (lastPos s)) (beginPath k))))))).

(** The two messages of the completion effect. *)
Definition completionPosts : list Posted :=
  [ {| target := self; data := completionMessage; targetOrigin := "*" |};
    {| target := parent; data := completionMessage; targetOrigin := "*" |} ].

(** The context the set-up effect leaves: the default state with round
    caps and joins, on a blank bitmap. *)
Definition readyContext : Context2D :=
  set_lineJoin join_round (set_lineCap round defaultContext).

(** A world as the set-up effect leaves it: without a canvas or without a
    2D context nothing listens; otherwise the canvas has the size of the
    props, its context is the ready one and the listeners are on. *)
Definition settled (w : World) : Prop :=
  match element w with
  | None => attached w = false
  | Some c =>
      match Canvas.context2d c with
      | None => attached w = false
      | Some k =>
          attached w = true
          /\ k = readyContext
          /\ Canvas.width c = reflected 300 (p_width (props w))
          /\ Canvas.height c = reflected 150 (p_height (props w))
      end
  end.

(** The canvas [c] after the two size assignments and the two context
    assignments of the set-up effect. *)
Definition sized (p : Props) (c : Canvas.t) : Canvas.t :=
  {| Canvas.width := reflected 300 (p_width p);
     Canvas.height := reflected 150 (p_height p);
     Canvas.boundingClientRect := Canvas.boundingClientRect c;
     Canvas.context2d := Some readyContext |}.

(** The heap after the clean-up and a run of the set-up effect. *)
Definition setupResult (p : Props) (h : Heap) : Heap :=
  match contextOf h, canvasRef h with
  | Some _, Some c => set_listening true (set_canvasRef (Some (sized p c)) h)
  | _, _ => set_listening false h
  end.

(** Whether a queue of setter calls takes [isDrawing] from false to true. *)
Definition activates (s : State) (q : list Update) : bool :=
  negb (isDrawing s) && isDrawing (reduce s q).

(** The three event types whose listener is [stopDrawing]. *)
Definition endsStroke (t : EventType) : bool :=
  match t with
  | mouseup | mouseleave | touchend => true
  | _ => false
  end.

(** A brush width the slider can report. *)
Definition sliderWidth (v : number) : Prop :=
  exists n : Z, (sliderMin <= n <= sliderMax)%Z /\ v = number_of_Z n.

(** The outcome of [draw] in a heap, case by case. *)
Inductive drawOutcome (s : State) (e : Event) (h : Heap) : Completion unit -> Prop :=
| draw_nothing :
    isDrawing s = false -> drawOutcome s e h (Normal tt h)
| draw_prevented :
    isDrawing s = true -> contextOf h = None ->
    drawOutcome s e h (Normal tt (set_defaultPrevented true h))
| draw_thrown :
    isDrawing s = true -> contextOf h <> None -> clientPoint e = None ->
    drawOutcome s e h (TypeError (set_defaultPrevented true h))
| draw_painted c k cx cy :
    isDrawing s = true -> canvasRef h = Some c -> Canvas.context2d c = Some k ->
    clientPoint e = Some (cx, cy) ->
    drawOutcome s e h
      (Normal tt
         (enqueue (setLastPos (toSurface c cx cy))
            (set_canvasRef (Some (set_context (strokeTo s (toSurface c cx cy) k) c))
               (set_defaultPrevented true h)))).

(** The callback behind each action; [None] for a re-layout and for
    an action that reaches no callback. *)
Definition callbackOf (a : Action) (w : World) : option (State -> M unit) :=
  match a with
  | Dispatch t e => if attached w then Some (fun s => listener s t e) else None
  | ClickColor i =>
      match nth_error colors i with
      | Some color => Some (fun _ => onColorClick color)
      | None => None
      end
  | Slide n => Some (fun _ => onBrushChange (sliderValue n))
  | ClickClear => Some (fun _ => clearCanvas)
  | Layout _ => None
  end.

(** ** Worlds of the examples *)

Definition noProps : BlockProps := {| title := None; width := None; height := None |}.

(** The canvas laid out at its buffer size, and scaled down by CSS. *)
Definition fullSize : DOMRect.t := DOMRect.make 0 0 800 600.
Definition scaledDown : DOMRect.t := DOMRect.make 0 0 390 292.5.

(** The default whiteboard on a page that gives it a canvas in [r]. *)
Definition whiteboard (r : DOMRect.t) : World := mount noProps (Some (createCanvas r true)).

(** The default whiteboard with no canvas behind its ref. *)
Definition unmounted : World := mount noProps None.

(** A world with the same canvas, but [b] on its surface. *)
Definition withSurface (b : Bitmap) (w : World) : World :=
  {| props := props w; state := state w;
     element :=
       match element w with
       | Some c =>
           Some match Canvas.context2d c with
                | Some k => set_context (set_bitmap b k) c
                | None => c
                end
       | None => None
       end;
     attached := attached w; outbox := outbox w |}.

(** The default whiteboard at full size with a red stroke on its surface. *)
Definition redStroke : PaintOp :=
  segment {| x := 10; y := 10 |} {| x := 20; y := 20 |} "#FF0000" 5.

Definition inked : World := withSurface [redStroke] (whiteboard fullSize).

(** ** Kinds of events and actions *)

(** The event types whose listener is [startDrawing], and [draw]. *)
Definition beginsStroke (t : EventType) : bool :=
  match t with
  | mousedown | touchstart => true
  | _ => false
  end.

Definition extendsStroke (t : EventType) : bool :=
  match t with
  | mousemove | touchmove => true
  | _ => false
  end.

(** An event on the canvas, as opposed to the toolbar and the page. *)
Definition onCanvasEvent (a : Action) : bool :=
  match a with
  | Dispatch _ _ => true
  | _ => false
  end.

(** A list of posts made of completion pairs only. *)
Definition paired (l : list Posted) : Prop :=
  exists n : nat, l = List.concat (repeat completionPosts n).

(** One gesture with the mouse: down, any number of moves, up. *)
Definition gesture (cx cy : number) (moves : list Event) (up : Event) : list Action :=
  Dispatch mousedown (MouseEvent cx cy)
  :: map (Dispatch mousemove) moves ++ [Dispatch mouseup up].

(** One run of the set-up effect after its clean-up, as a function on
    heaps. *)
Definition setUp (p : Props) (h : Heap) : Heap :=
  heapOf ((setupCleanup ;; setupEffect p)%js h).

(** The 2D context of an element a component is mounted on. *)
Definition contextOfElement (el : option Canvas.t) : option Context2D :=
  match el with
  | Some c => Canvas.context2d c
  | None => None
  end.

(** What stays true of a component whose canvas gives no 2D context. *)
Definition inert (w : World) : Prop :=
  contextOf (enter w) = None /\ attached w = false
  /\ isDrawing (state w) = false /\ lastPos (state w) = lastPos initialState
  /\ outbox w = [].

(** A whiteboard of width 0: the canvas is laid out 4 wide (its two
    borders) and 604 high. *)
Definition bordersOnly : DOMRect.t := DOMRect.make 0 0 4 604.

Definition zeroWide : World :=
  mount {| title := None; width := Some 0; height := None |}
    (Some (createCanvas bordersOnly true)).

(** The default whiteboard on a canvas that gives no 2D context. *)
Definition contextless : World := mount noProps (Some (createCanvas fullSize false)).

(** * Facts of binary64 arithmetic

    The primitive operations are specified by [Prim2SF] and the
    operations on [spec_float]; the lemmas below are read off that
    specification. *)

Section Binary64.

Local Open Scope float_scope.

Lemma SFcompare_same s m e :
  SFcompare (S754_finite s m e) (S754_finite s m e) = Some Eq.
Proof.
  simpl. rewrite Z.compare_refl, Pos.compare_cont_refl. destruct s; reflexivity.
Qed.

Lemma isFinite_spec f : isFinite f = true -> SFfinite (Prim2SF f).
Proof.
  unfold isFinite, is_finite, is_nan, is_infinity.
  rewrite !eqb_spec, abs_spec.
  change (Prim2SF infinity) with (S754_infinity false).
  destruct (Prim2SF f) as [s|s| |s m e]; simpl; intros H;
    try discriminate H; try (destruct s; discriminate H); constructor.
Qed.

Lemma sub_diag f : isFinite f = true -> f - f = 0.
Proof.
  intros H. apply isFinite_spec in H.
  apply Prim2SF_inj. rewrite sub_spec.
  change (Prim2SF 0) with (S754_zero false).
  inversion H as [s Hs|s m e Hs]; unfold SF64sub, SFsub.
  - destruct s; reflexivity.
  - cbv zeta. rewrite Z.sub_diag. reflexivity.
Qed.

Lemma mul_zero_l s : isFinite s = true -> (0 * s =? 0) = true.
Proof.
  intros H. apply isFinite_spec in H.
  rewrite eqb_spec, mul_spec.
  change (Prim2SF 0) with (S754_zero false).
  inversion H as [b Hs|b m e Hs]; reflexivity.
Qed.

Lemma leb_zero_add f : isFinite f = true -> (f <=? 0 + f) = true.
Proof.
  intros H. apply isFinite_spec in H.
  rewrite leb_spec, add_spec.
  change (Prim2SF 0) with (S754_zero false).
  inversion H as [b Hs|b m e Hs]; unfold SF64add, SFadd, SFleb.
  - destruct b; reflexivity.
  - rewrite SFcompare_same. reflexivity.
Qed.

(** ** Rounding keeps the sign *)

Lemma shr_1_nonneg mrs : (0 <= shr_m mrs -> 0 <= shr_m (shr_1 mrs))%Z.
Proof.
  destruct mrs as [m r s]; simpl.
  destruct m as [|p|p]; simpl; intros H; try lia.
  destruct p; simpl; lia.
Qed.

Lemma iter_pos_inv (A : Type) (P : A -> Prop) (f : A -> A) :
  (forall a, P a -> P (f a)) -> forall p a, P a -> P (iter_pos f p a).
Proof.
  intros Hf. induction p as [p IH|p IH|]; simpl; intros a Ha; auto.
Qed.

Lemma shr_fexp_nonneg m e l :
  (0 <= m -> 0 <= shr_m (fst (shr_fexp prec emax m e l)))%Z.
Proof.
  intros Hm. unfold shr_fexp, shr.
  assert (H0 : (0 <= shr_m (shr_record_of_loc m l))%Z).
  { destruct l as [|[ | | ]]; simpl; exact Hm. }
  destruct (fexp prec emax (Zdigits2 m + e) - e)%Z as [|p|p]; simpl; auto.
  apply iter_pos_inv with (P := fun r => (0 <= shr_m r)%Z); auto using shr_1_nonneg.
Qed.

Lemma round_nearest_even_nonneg m l : (0 <= m -> 0 <= round_nearest_even m l)%Z.
Proof.
  intros Hm. destruct l as [|[ | | ]]; simpl; try lia.
  destruct (Z.even m); lia.
Qed.

Lemma binary_round_aux_signed s m e l :
  (0 <= m)%Z -> signed s (binary_round_aux prec emax s m e l).
Proof.
  intros Hm. unfold binary_round_aux.
  pose proof (shr_fexp_nonneg m e l Hm) as H1.
  destruct (shr_fexp prec emax m e l) as [mrs' e']; simpl in H1.
  pose proof (shr_fexp_nonneg _ e' loc_Exact
                (round_nearest_even_nonneg _ (loc_of_shr_record mrs') H1)) as H2.
  destruct (shr_fexp prec emax _ e' loc_Exact) as [mrs'' e'']; simpl in H2.
  destruct (shr_m mrs'') as [|p|p].
  - constructor.
  - destruct (e'' <=? emax - prec)%Z; constructor.
  - lia.
Qed.

(** A negative number times a positive one is never positive (it is
    [-0] when the product underflows). *)
Lemma mul_neg_pos d s : (d <? 0) = true -> (0 <? s) = true -> (d * s <=? 0) = true.
Proof.
  rewrite !ltb_spec, leb_spec, mul_spec.
  change (Prim2SF 0) with (S754_zero false).
  unfold SF64mul.
  destruct (Prim2SF d) as [sd|sd| |sd md ed]; try discriminate;
    destruct sd; try discriminate; intros _;
    destruct (Prim2SF s) as [ss|ss| |ss ms es]; try discriminate;
    destruct ss; try discriminate; intros _; try reflexivity.
  unfold SFmul.
  assert (H := binary_round_aux_signed (xorb true false)
                 (Zpos (md * ms)) (ed + es) loc_Exact ltac:(lia)).
  destruct H; reflexivity.
Qed.

(** A finite negative number times a zero, a positive number or
    [+Infinity] is never positive. *)
Lemma mul_neg_nonneg d s :
  (d <? 0) = true -> isFinite d = true -> (0 <=? s) = true -> (d * s <=? 0) = true.
Proof.
  intros Hd Hf. apply isFinite_spec in Hf. revert Hd.
  rewrite ltb_spec, !leb_spec, mul_spec.
  change (Prim2SF 0) with (S754_zero false).
  unfold SF64mul.
  inversion Hf as [sd Hsd|sd md ed Hsd]; [discriminate|].
  destruct sd; [|discriminate]. intros _.
  destruct (Prim2SF s) as [ss|ss| |ss ms es]; try discriminate;
    destruct ss; try discriminate; intros _; try reflexivity.
  unfold SFmul.
  assert (H := binary_round_aux_signed (xorb true false)
                 (Zpos (md * ms)) (ed + es) loc_Exact ltac:(lia)).
  destruct H; reflexivity.
Qed.

(** A finite number times a zero is a zero. *)
Lemma mul_zero_r d s : isFinite d = true -> (s =? 0) = true -> (d * s =? 0) = true.
Proof.
  intros Hf. apply isFinite_spec in Hf.
  rewrite !eqb_spec, mul_spec.
  change (Prim2SF 0) with (S754_zero false).
  unfold SF64mul.
  inversion Hf as [sd Hsd|sd md ed Hsd];
    destruct (Prim2SF s) as [ss|ss| |ss ms es]; try discriminate;
    try (destruct ss; discriminate); intros _; reflexivity.
Qed.

(** ** A number divided by itself, and a number times one *)

Lemma div_eucl_shiftl m :
  Z.div_eucl (Z.shiftl (Zpos m) 53) (Zpos m) = (9007199254740992, 0)%Z.
Proof.
  rewrite Z.shiftl_mul_pow2 by lia.
  change (2 ^ 53)%Z with 9007199254740992%Z.
  pose proof (Z.div_mul 9007199254740992 (Zpos m) ltac:(lia)) as Q.
  pose proof (Z.mod_mul 9007199254740992 (Zpos m) ltac:(lia)) as R.
  rewrite (Z.mul_comm (Zpos m)).
  unfold Z.div, Z.modulo in Q, R.
  destruct (Z.div_eucl (9007199254740992 * Z.pos m) (Z.pos m)) as [q r].
  congruence.
Qed.

Lemma SFdiv_diag s m e :
  SFdiv prec emax (S754_finite s m e) (S754_finite s m e)
  = S754_finite false 4503599627370496 (-52).
Proof.
  unfold SFdiv, SFdiv_core_binary. cbv zeta.
  rewrite !Z.sub_diag.
  change (Z.min (fexp prec emax 0) 0) with (-53)%Z.
  change (0 - -53)%Z with 53%Z.
  cbv iota.
  change (IntDef.Z.div_eucl (IntDef.Z.shiftl (Z.pos m) 53) (Z.pos m))
    with (Z.div_eucl (Z.shiftl (Z.pos m) 53) (Z.pos m)).
  rewrite div_eucl_shiftl.
  replace (new_location (Zpos m) 0) with loc_Exact
    by (unfold new_location, new_location_even, new_location_odd;
        destruct (Z.even (Zpos m)); reflexivity).
  destruct s; reflexivity.
Qed.

Lemma div_diag f : isFinite f = true -> (f =? 0) = false -> f / f = 1.
Proof.
  intros Hf. apply isFinite_spec in Hf.
  rewrite eqb_spec. change (Prim2SF 0) with (S754_zero false). intros Hz.
  apply Prim2SF_inj. rewrite div_spec.
  change (Prim2SF 1) with (S754_finite false 4503599627370496 (-52)).
  inversion Hf as [s Hs|s m e Hs]; rewrite <- Hs in Hz.
  - discriminate Hz.
  - apply SFdiv_diag.
Qed.

Lemma mul_pow2_52 m :
  (m * 4503599627370496)%positive = Pos.iter xO m 52%positive.
Proof. rewrite Pos.mul_comm. cbv [Pos.mul Pos.iter]. reflexivity. Qed.

Lemma digits2_pos_iter_xO m k :
  Z.pos (digits2_pos (Pos.iter xO m k)) = (Z.pos (digits2_pos m) + Z.pos k)%Z.
Proof.
  revert m. induction k using Pos.peano_ind; intros m.
  - simpl. lia.
  - rewrite Pos.iter_succ. cbn [digits2_pos]. rewrite Pos2Z.inj_succ, IHk. lia.
Qed.

Lemma iter_pos_Pos_iter (A : Type) (f : A -> A) p : forall a,
  iter_pos f p a = Pos.iter f a p.
Proof.
  induction p as [p IH|p IH|]; intros a; simpl.
  - rewrite !IH. rewrite <- !Pos.iter_swap. reflexivity.
  - rewrite !IH. reflexivity.
  - reflexivity.
Qed.

Lemma iter_shr_1 k : forall m,
  iter_pos shr_1 k (Build_shr_record (Z.pos (Pos.iter xO m k)) false false)
  = Build_shr_record (Z.pos m) false false.
Proof.
  intros m. rewrite iter_pos_Pos_iter. revert m.
  induction k using Pos.peano_ind; intros m.
  - reflexivity.
  - rewrite Pos.iter_succ, Pos.iter_succ_r, IHk. reflexivity.
Qed.

Lemma SFmul_one s m e :
  valid_binary (S754_finite s m e) = true ->
  SFmul prec emax (S754_finite s m e) (S754_finite false 4503599627370496 (-52))
  = S754_finite s m e.
Proof.
  unfold SpecFloat.valid_binary, bounded, canonical_mantissa.
  rewrite andb_true_iff, Z.eqb_eq, Z.leb_le. intros [Hc He].
  unfold SFmul. rewrite mul_pow2_52.
  unfold binary_round_aux, shr_fexp, Zdigits2.
  rewrite digits2_pos_iter_xO.
  replace (Z.pos (digits2_pos m) + 52 + (e + -52))%Z
    with (Z.pos (digits2_pos m) + e)%Z by lia.
  rewrite Hc.
  replace (e - (e + -52))%Z with 52%Z by lia.
  unfold shr at 1.
  change (shr_record_of_loc (Z.pos (Pos.iter xO m 52)) loc_Exact)
    with (Build_shr_record (Z.pos (Pos.iter xO m 52)) false false).
  rewrite iter_shr_1.
  cbn [shr_m loc_of_shr_record round_nearest_even shr_record_of_loc Zdigits2].
  replace (e + -52 + 52)%Z with e by lia.
  rewrite Hc, Z.sub_diag. cbn [shr shr_m].
  apply Z.leb_le in He. rewrite He.
  destruct s; reflexivity.
Qed.

Lemma mul_one_r f : isFinite f = true -> f * 1 = f.
Proof.
  intros Hf. apply isFinite_spec in Hf.
  apply Prim2SF_inj. rewrite mul_spec.
  change (Prim2SF 1) with (S754_finite false 4503599627370496 (-52)).
  pose proof (Prim2SF_valid f) as Hv.
  inversion Hf as [s Hs|s m e Hs]; rewrite <- Hs in Hv.
  - destruct s; reflexivity.
  - apply SFmul_one. exact Hv.
Qed.

End Binary64.

(** * The callbacks, one by one *)

Section Callbacks.

Lemma getContext_spec h : getContext h = Normal (contextOf h) h.
Proof. reflexivity. Qed.

(** [getPosition] reads the canvas and the event and changes nothing. *)
Lemma getPosition_spec e h :
  getPosition e h =
  match canvasRef h with
  | None => Normal origin h
  | Some c =>
      match clientPoint e with
      | Some (cx, cy) => Normal (toSurface c cx cy) h
      | None => TypeError h
      end
  end.
Proof.
  unfold getPosition, bind, readCanvasRef.
  destruct (canvasRef h) as [c|]; [|reflexivity].
  destruct e as [cx cy|[|t ts]]; reflexivity.
Qed.

Lemma startDrawing_spec e h :
  startDrawing e h =
  match canvasRef h with
  | None =>
      Normal tt (enqueue (setLastPos origin)
                   (enqueue (setIsDrawing true) (set_defaultPrevented true h)))
  | Some c =>
      match clientPoint e with
      | Some (cx, cy) =>
          Normal tt (enqueue (setLastPos (toSurface c cx cy))
                       (enqueue (setIsDrawing true) (set_defaultPrevented true h)))
      | None => TypeError (set_defaultPrevented true h)
      end
  end.
Proof.
  unfold startDrawing, bind, preventDefault. rewrite getPosition_spec.
  cbn [canvasRef set_defaultPrevented].
  destruct (canvasRef h) as [c|]; [|reflexivity].
  destruct (clientPoint e) as [[cx cy]|]; reflexivity.
Qed.

Lemma draw_idle s e h : isDrawing s = false -> draw s e h = Normal tt h.
Proof. unfold draw. intros ->. reflexivity. Qed.

Lemma draw_without_context s e h :
  isDrawing s = true -> contextOf h = None ->
  draw s e h = Normal tt (set_defaultPrevented true h).
Proof.
  unfold draw, bind, preventDefault. intros -> Hk.
  cbn [negb]. rewrite getContext_spec.
  unfold contextOf in *. cbn [canvasRef set_defaultPrevented].
  rewrite Hk. reflexivity.
Qed.

Lemma draw_malformed s e h c k :
  isDrawing s = true -> canvasRef h = Some c -> Canvas.context2d c = Some k ->
  clientPoint e = None ->
  draw s e h = TypeError (set_defaultPrevented true h).
Proof.
  unfold draw, bind, preventDefault. intros -> Hc Hk He.
  cbn [negb]. rewrite getContext_spec.
  unfold contextOf. cbn [canvasRef set_defaultPrevented].
  rewrite Hc, Hk, getPosition_spec. cbn [canvasRef set_defaultPrevented].
  rewrite Hc, He. reflexivity.
Qed.

Lemma draw_active s e h c k cx cy :
  isDrawing s = true -> canvasRef h = Some c -> Canvas.context2d c = Some k ->
  clientPoint e = Some (cx, cy) ->
  draw s e h =
  Normal tt
    (enqueue (setLastPos (toSurface c cx cy))
       (set_canvasRef (Some (set_context (strokeTo s (toSurface c cx cy) k) c))
          (set_defaultPrevented true h))).
Proof.
  intros Hs Hc Hk He.
  destruct h as [hc hl hd hq hp]. cbn in Hc. subst hc.
  destruct c as [cw ch cr ck]. cbn in Hk. subst ck.
  unfold draw, bind, preventDefault. rewrite Hs.
  cbn [negb]. rewrite getContext_spec.
  cbn [contextOf canvasRef set_defaultPrevented Canvas.context2d].
  rewrite getPosition_spec. cbn [canvasRef]. rewrite He.
  reflexivity.
Qed.

Lemma stopDrawing_spec h : stopDrawing h = Normal tt (enqueue (setIsDrawing false) h).
Proof. reflexivity. Qed.

Lemma clearCanvas_without_context h : contextOf h = None -> clearCanvas h = Normal tt h.
Proof.
  unfold clearCanvas, bind. rewrite getContext_spec. intros ->.
  unfold readCanvasRef. destruct (canvasRef h); reflexivity.
Qed.

Lemma clearCanvas_with_context h c k :
  canvasRef h = Some c -> Canvas.context2d c = Some k ->
  clearCanvas h =
  Normal tt
    (set_canvasRef
       (Some (set_context
                (clearRect (Canvas.width c) (Canvas.height c) 0%float 0%float
                   (Canvas.width c) (Canvas.height c) k) c)) h).
Proof.
  intros Hc Hk.
  destruct h as [hc hl hd hq hp]. cbn in Hc. subst hc.
  destruct c as [cw ch cr ck]. cbn in Hk. subst ck.
  reflexivity.
Qed.

End Callbacks.

(** * Commits *)

Section Commits.

Lemma Object_is_refl (a : number) : Object_is a a = true.
Proof. apply FloatAxioms.Leibniz.eqb_spec. reflexivity. Qed.

Lemma drawChanged_nil s : drawChanged s [] = false.
Proof.
  unfold drawChanged. cbn [reduce fold_left existsb].
  rewrite Bool.eqb_reflx, String.eqb_refl, Object_is_refl. reflexivity.
Qed.

Lemma setup_spec p h :
  (setupCleanup ;; setupEffect p)%js h = Normal tt (setupResult p h).
Proof.
  destruct h as [hc hl hd hq hp]. unfold setupResult, contextOf.
  destruct hc as [[cw ch cr [k|]]|]; reflexivity.
Qed.

Lemma completionEffect_spec s h :
  completionEffect s h =
  Normal tt
    {| canvasRef := canvasRef h; listening := listening h;
       defaultPrevented := defaultPrevented h; queue := queue h;
       posted := posted h ++ (if isDrawing s then completionPosts else []) |}.
Proof.
  unfold completionEffect. destruct (isDrawing s).
  - destruct h. unfold bind, postMessage, post. cbn. rewrite <- app_assoc. reflexivity.
  - destruct h. cbn. rewrite app_nil_r. reflexivity.
Qed.

(** A commit: the queue is reduced; the set-up effect runs again when
    [draw] is a new function; the completion messages are posted when
    [isDrawing] went from false to true. *)
Lemma commit_spec w h :
  commit w h =
  let h' := if drawChanged (state w) (queue h)
            then setupResult (props w) h else h in
  {| props := props w;
     state := reduce (state w) (queue h);
     element := canvasRef h';
     attached := listening h';
     outbox := outbox w ++ posted h ++
               (if activates (state w) (queue h) then completionPosts else []) |}.
Proof.
  unfold commit, effects, activates, completionEffect.
  destruct (drawChanged (state w) (queue h));
    destruct (isDrawing (state w)), (isDrawing (reduce (state w) (queue h)));
    destruct h as [hc hl hd hq hp]; destruct hc as [[cw ch cr [k|]]|];
    cbn; rewrite ?app_nil_r, <- ?app_assoc; reflexivity.
Qed.

(** A callback that queued nothing and touched neither the canvas nor
    the listeners leaves the world as it was. *)
Lemma commit_nothing w h :
  queue h = [] -> posted h = [] ->
  canvasRef h = element w -> listening h = attached w ->
  commit w h = w.
Proof.
  intros Hq Hp Hc Hl. rewrite commit_spec, Hq, Hp, drawChanged_nil.
  unfold activates. cbn [reduce fold_left]. rewrite andb_negb_l, Hc, Hl.
  destruct w. cbn. rewrite app_nil_r. reflexivity.
Qed.

End Commits.

(** * What an event does to the world *)

Section Steps.

Lemma reduce_nil s : reduce s [] = s.
Proof. reflexivity. Qed.

Lemma reducer_idle s : isDrawing s = false -> reducer s (setIsDrawing false) = s.
Proof. destruct s as [d c b p]. cbn. intros ->. reflexivity. Qed.

Lemma draw_outcome s e h : drawOutcome s e h (draw s e h).
Proof.
  destruct (isDrawing s) eqn:Hs.
  - destruct (contextOf h) as [k|] eqn:Hk.
    + unfold contextOf in Hk. destruct (canvasRef h) as [c|] eqn:Hc; [|discriminate].
      destruct (clientPoint e) as [[cx cy]|] eqn:He.
      * rewrite (draw_active s e h c k cx cy Hs Hc Hk He).
        eapply draw_painted; eauto.
      * rewrite (draw_malformed s e h c k Hs Hc Hk He).
        apply draw_thrown; auto. unfold contextOf. rewrite Hc, Hk. discriminate.
    + rewrite (draw_without_context s e h Hs Hk). apply draw_prevented; auto.
  - rewrite (draw_idle s e h Hs). apply draw_nothing; auto.
Qed.

(** No callback posts a message, adds or removes a listener. *)
Lemma listener_frame s t e h :
  posted (heapOf (listener s t e h)) = posted h
  /\ listening (heapOf (listener s t e h)) = listening h.
Proof.
  destruct t; cbn [listener];
    try (rewrite startDrawing_spec; destruct (canvasRef h);
         [destruct (clientPoint e) as [[cx cy]|]|]; split; reflexivity);
    try (rewrite stopDrawing_spec; split; reflexivity);
    destruct (draw_outcome s e h); split; reflexivity.
Qed.

Lemma clearCanvas_frame h :
  posted (heapOf (clearCanvas h)) = posted h
  /\ listening (heapOf (clearCanvas h)) = listening h
  /\ queue (heapOf (clearCanvas h)) = queue h.
Proof.
  destruct (contextOf h) as [k|] eqn:Hk.
  - unfold contextOf in Hk. destruct (canvasRef h) as [c|] eqn:Hc; [|discriminate].
    rewrite (clearCanvas_with_context h c k Hc Hk). repeat split; reflexivity.
  - rewrite (clearCanvas_without_context h Hk). repeat split; reflexivity.
Qed.

Lemma step_callback a w k :
  callbackOf a w = Some k -> step a w = handle k w.
Proof.
  destruct a as [t e|i|n| |r]; cbn [callbackOf step].
  - destruct (attached w); [|discriminate]. intros [= <-]. reflexivity.
  - destruct (nth_error colors i); [|discriminate]. intros [= <-]. reflexivity.
  - intros [= <-]. reflexivity.
  - intros [= <-]. reflexivity.
  - discriminate.
Qed.

Lemma step_no_callback a w :
  callbackOf a w = None -> state (step a w) = state w /\ outbox (step a w) = outbox w.
Proof.
  destruct a as [t e|i|n| |r]; cbn [callbackOf step].
  - destruct (attached w); [discriminate|]. split; reflexivity.
  - destruct (nth_error colors i); [discriminate|]. split; reflexivity.
  - discriminate.
  - discriminate.
  - split; reflexivity.
Qed.

Lemma callback_posts_nothing a w k :
  callbackOf a w = Some k -> posted (heapOf (k (state w) (enter w))) = [].
Proof.
  destruct a as [t e|i|n| |r]; cbn [callbackOf].
  - destruct (attached w); [|discriminate]. intros [= <-].
    apply (listener_frame (state w) t e (enter w)).
  - destruct (nth_error colors i); [|discriminate]. intros [= <-]. reflexivity.
  - intros [= <-]. reflexivity.
  - intros [= <-]. apply (clearCanvas_frame (enter w)).
  - discriminate.
Qed.

Lemma handle_state k w :
  state (handle k w) = reduce (state w) (queue (heapOf (k (state w) (enter w)))).
Proof. unfold handle. rewrite commit_spec. reflexivity. Qed.

Lemma handle_outbox k w :
  posted (heapOf (k (state w) (enter w))) = [] ->
  outbox (handle k w) =
  outbox w ++
  (if negb (isDrawing (state w)) && isDrawing (state (handle k w))
   then completionPosts else []).
Proof.
  intros Hp. rewrite handle_state. unfold handle. rewrite commit_spec.
  cbn [outbox]. rewrite Hp. reflexivity.
Qed.

End Steps.

(** * The claims *)

(** C4. The completion effect posts the message
    [{ type: "BLOCK_COMPLETION", blockId: "685334c2157dfa0de308d307",
    completed: true }] once to the window and once to its parent exactly
    when an action takes [isDrawing] from false to true; mounting and
    every other action post nothing. *)
Theorem C4_completion_on_activation :
  completionPosts =
    [ {| target := self;
         data := {| type := "BLOCK_COMPLETION";
                    blockId := "685334c2157dfa0de308d307"; completed := true |};
         targetOrigin := "*" |};
      {| target := parent;
         data := {| type := "BLOCK_COMPLETION";
                    blockId := "685334c2157dfa0de308d307"; completed := true |};
         targetOrigin := "*" |} ]
  /\ (forall p el, outbox (mount p el) = [])
  /\ (forall a w,
        outbox (step a w) =
        outbox w ++
        (if negb (isDrawing (state w)) && isDrawing (state (step a w))
         then completionPosts else [])).
Proof.
  split; [reflexivity|]. split.
  - intros p [[cw ch cr [k|]]|]; reflexivity.
  - intros a w. destruct (callbackOf a w) as [k|] eqn:Hk.
    + rewrite (step_callback a w k Hk).
      apply handle_outbox, (callback_posts_nothing a w k Hk).
    + destruct (step_no_callback a w Hk) as [-> ->].
      rewrite andb_negb_l, app_nil_r. reflexivity.
Qed.

Section EndStroke.

Lemma stop_listener s t e : endsStroke t = true -> listener s t e = stopDrawing.
Proof. destruct t; cbn; intros H; try discriminate H; reflexivity. Qed.

Lemma stop_commit w :
  handle (fun _ => stopDrawing) w =
  if isDrawing (state w)
  then {| props := props w;
          state := reducer (state w) (setIsDrawing false);
          element := canvasRef (setupResult (props w) (enter w));
          attached := listening (setupResult (props w) (enter w));
          outbox := outbox w |}
  else w.
Proof.
  unfold handle. rewrite stopDrawing_spec, commit_spec.
  cbn [heapOf enqueue enter queue posted app]. unfold drawChanged, activates.
  cbn [reduce fold_left reducer isDrawing currentColor brushSize existsb
         replacesLastPos orb].
  rewrite String.eqb_refl, Object_is_refl, andb_false_r.
  destruct w as [p [d c b l] el att ob]. cbn [state isDrawing].
  destruct d; cbn; rewrite app_nil_r.
  - unfold setupResult, contextOf. cbn.
    destruct el as [[cw ch cr [k|]]|]; reflexivity.
  - reflexivity.
Qed.

Lemma setupResult_settled w :
  settled w ->
  canvasRef (setupResult (props w) (enter w)) = element w
  /\ listening (setupResult (props w) (enter w)) = attached w.
Proof.
  destruct w as [p s el att ob]. unfold settled, setupResult, contextOf.
  destruct el as [[cw ch cr [k|]]|]; cbn.
  - intros (-> & -> & -> & ->). split; reflexivity.
  - intros ->. split; reflexivity.
  - intros ->. split; reflexivity.
Qed.

End EndStroke.

(** C6. A [mouseup], [mouseleave] or [touchend] on an idle component
    leaves the world as it is; a second one after a first changes nothing
    more; the only state cell it writes is [isDrawing := false]; it posts
    nothing; and in a world as the set-up effect leaves it, the canvas and
    its listeners are the same afterwards. *)
Theorem C6_end_stroke (w : World) (t : EventType) (e : Event) :
  endsStroke t = true ->
  (isDrawing (state w) = false -> step (Dispatch t e) w = w)
  /\ (forall t' e', endsStroke t' = true ->
        step (Dispatch t' e') (step (Dispatch t e) w) = step (Dispatch t e) w)
  /\ state (step (Dispatch t e) w)
     = (if attached w then reducer (state w) (setIsDrawing false) else state w)
  /\ outbox (step (Dispatch t e) w) = outbox w
  /\ (settled w ->
        element (step (Dispatch t e) w) = element w
        /\ attached (step (Dispatch t e) w) = attached w).
Proof.
  intros Ht.
  assert (Hstep : forall t0 e0 w0, endsStroke t0 = true ->
            step (Dispatch t0 e0) w0 =
            if attached w0 then handle (fun _ => stopDrawing) w0 else w0).
  { intros t0 e0 w0 H0. cbn [step]. destruct (attached w0); [|reflexivity].
    unfold handle. rewrite (stop_listener (state w0) t0 e0 H0). reflexivity. }
  assert (Hidle : forall t0 e0 w0, endsStroke t0 = true ->
            isDrawing (state w0) = false -> step (Dispatch t0 e0) w0 = w0).
  { intros t0 e0 w0 H0 Hd. rewrite (Hstep t0 e0 w0 H0), stop_commit, Hd.
    destruct (attached w0); reflexivity. }
  split; [intros Hd; apply Hidle; assumption|]. split; [|split; [|split]].
  - intros t' e' Ht'. rewrite (Hstep t e w Ht).
    destruct (attached w) eqn:Ha.
    + apply Hidle; [exact Ht'|]. rewrite stop_commit.
      destruct (isDrawing (state w)) eqn:Hd; [reflexivity|exact Hd].
    + rewrite (Hstep t' e' w Ht'), Ha. reflexivity.
  - rewrite (Hstep t e w Ht), stop_commit.
    destruct (attached w), (isDrawing (state w)) eqn:Hd; try reflexivity.
    symmetry. apply reducer_idle. exact Hd.
  - rewrite (Hstep t e w Ht), stop_commit.
    destruct (attached w), (isDrawing (state w)); reflexivity.
  - intros Hs. rewrite (Hstep t e w Ht), stop_commit.
    destruct (setupResult_settled w Hs) as [Hel Hatt].
    destruct (attached w) eqn:Ha, (isDrawing (state w));
      cbn [element attached]; rewrite ?Ha; split; solve [reflexivity | assumption].
Qed.

Lemma C6_end_stroke_witness :
  endsStroke touchend = true
  /\ outbox (step (Dispatch touchend (TouchEvent [])) (whiteboard fullSize))
     = outbox (whiteboard fullSize).
Proof.
  split; [reflexivity|].
  apply (C6_end_stroke (whiteboard fullSize) touchend (TouchEvent []) eq_refl).
Defined.

Section Clear.

Lemma clearRect_whole k bw bh :
  isFinite bw = true -> isFinite bh = true ->
  clearRect bw bh 0 0 bw bh k = set_bitmap [] k.
Proof.
  intros Hw Hh. unfold clearRect, covers.
  rewrite Hw, Hh, (leb_zero_add bw Hw), (leb_zero_add bh Hh). reflexivity.
Qed.

Lemma clear_commit w :
  step ClickClear w =
  {| props := props w; state := state w;
     element := canvasRef (heapOf (clearCanvas (enter w)));
     attached := attached w; outbox := outbox w |}.
Proof.
  cbn [step]. unfold handle. rewrite commit_spec.
  destruct (clearCanvas_frame (enter w)) as (Hp & Hl & Hq).
  rewrite Hq, Hp. cbn [enter queue posted].
  rewrite drawChanged_nil. cbv zeta. rewrite Hl. unfold activates.
  cbn [reduce fold_left enter listening app].
  rewrite andb_negb_l, app_nil_r. reflexivity.
Qed.

End Clear.

(** C5. The Clear Canvas button leaves every state cell (so the colour
    and the brush size) as it is, whatever the world.  On a canvas with a
    2D context and a finite buffer size it leaves the surface blank
    whatever was on it, and the world after it is the same for any two
    prior contents of the surface: what was there cannot be got back. *)
Theorem C5_clear_wipes_surface (w : World) :
  state (step ClickClear w) = state w
  /\ (forall c k,
        element w = Some c -> Canvas.context2d c = Some k ->
        isFinite (Canvas.width c) = true -> isFinite (Canvas.height c) = true ->
        surface (step ClickClear w) = []
        /\ step ClickClear w =
           {| props := props w; state := state w;
              element := Some (set_context (set_bitmap [] k) c);
              attached := attached w; outbox := outbox w |}
        /\ forall b, step ClickClear (withSurface b w) = step ClickClear w).
Proof.
  split; [rewrite clear_commit; reflexivity|].
  intros c k Hc Hk Hw Hh.
  assert (E : forall b,
            step ClickClear (withSurface b w) =
            {| props := props w; state := state w;
               element := Some (set_context (set_bitmap [] k) c);
               attached := attached w; outbox := outbox w |}).
  { intros b. rewrite clear_commit.
    destruct w as [p s el att ob]. cbn in Hc. subst el.
    destruct c as [cw ch cr ck]. cbn in Hk, Hw, Hh. subst ck.
    cbn [withSurface element Canvas.context2d props state attached outbox].
    erewrite clearCanvas_with_context by reflexivity.
    cbn [Canvas.width Canvas.height set_context heapOf canvasRef set_canvasRef].
    rewrite (clearRect_whole _ cw ch Hw Hh). reflexivity. }
  assert (E0 : withSurface (bitmap k) w = w).
  { destruct w as [p s el att ob]. cbn in Hc. subst el.
    destruct c as [cw ch cr ck]. cbn in Hk. subst ck. destruct k. reflexivity. }
  pose proof (E (bitmap k)) as E1. rewrite E0 in E1.
  split; [|split].
  - rewrite E1. reflexivity.
  - exact E1.
  - intros b. rewrite E1. apply E.
Qed.

Lemma C5_clear_wipes_surface_witness :
  surface inked = [redStroke] /\ surface (step ClickClear inked) = [].
Proof.
  split; [reflexivity|].
  refine (proj1 (proj2 (C5_clear_wipes_surface inked)
                   {| Canvas.width := 800; Canvas.height := 600;
                      Canvas.boundingClientRect := fullSize;
                      Canvas.context2d := Some (set_bitmap [redStroke] readyContext) |}
                   (set_bitmap [redStroke] readyContext) _ _ _ _));
    vm_compute; reflexivity.
Defined.

(** C7. With no props the heading is "Simple Whiteboard", the colour is
    [#000000] and the brush size 3, and on a page that gives the canvas a
    2D context the buffer is 800 by 600, wherever the canvas is laid out.
    Each prop alone falls back to its default when it is left out and is
    taken as given otherwise. *)
Theorem C7_default_construction :
  (forall r,
      heading (whiteboard r) = "Simple Whiteboard"%string
      /\ option_map Canvas.width (element (whiteboard r)) = Some 800
      /\ option_map Canvas.height (element (whiteboard r)) = Some 600
      /\ currentColor (state (whiteboard r)) = "#000000"%string
      /\ brushSize (state (whiteboard r)) = 3)
  /\ (forall p,
        p_title (destructure p)
        = match title p with Some t => t | None => "Simple Whiteboard"%string end
        /\ p_width (destructure p)
           = match width p with Some v => v | None => 800 end
        /\ p_height (destructure p)
           = match height p with Some v => v | None => 600 end)
  /\ (forall p el,
        heading (mount p el) = p_title (destructure p)
        /\ state (mount p el) = initialState).
Proof.
  split; [|split].
  - intros r. repeat split; try reflexivity; cbn; f_equal; vm_compute; reflexivity.
  - intros [t w h]. repeat split.
  - intros p el. split; reflexivity.
Qed.

Section Tools.

Lemma slider_parse m :
  (sliderMin <= m <= sliderMax)%Z ->
  parseInt (NilZero.string_of_int (Z.to_int m)) = number_of_Z m.
Proof.
  unfold sliderMin, sliderMax. intros Hm.
  assert (H : (m = 1 \/ m = 2 \/ m = 3 \/ m = 4 \/ m = 5 \/ m = 6 \/ m = 7
               \/ m = 8 \/ m = 9 \/ m = 10 \/ m = 11 \/ m = 12 \/ m = 13
               \/ m = 14 \/ m = 15 \/ m = 16 \/ m = 17 \/ m = 18 \/ m = 19
               \/ m = 20)%Z) by lia.
  repeat (destruct H as [->|H]; [vm_compute; reflexivity|]).
  subst m. vm_compute. reflexivity.
Qed.

Lemma slider_clamped n :
  (sliderMin <= Z.max sliderMin (Z.min sliderMax n) <= sliderMax)%Z.
Proof. unfold sliderMin, sliderMax. lia. Qed.

Lemma slider_same n :
  (sliderMin <= n <= sliderMax)%Z -> Z.max sliderMin (Z.min sliderMax n) = n.
Proof. unfold sliderMin, sliderMax. lia. Qed.

Lemma slide_state n w :
  state (step (Slide n) w) =
  reducer (state w) (setBrushSize (number_of_Z (Z.max sliderMin (Z.min sliderMax n)))).
Proof.
  cbn [step]. rewrite handle_state. unfold onBrushChange, sliderValue.
  rewrite (slider_parse _ (slider_clamped n)). reflexivity.
Qed.

Lemma click_state i color w :
  nth_error colors i = Some color ->
  state (step (ClickColor i) w) = reducer (state w) (setCurrentColor color).
Proof. intros H. cbn [step]. rewrite H, handle_state. reflexivity. Qed.

(** The listeners of the canvas write neither the colour nor the brush
    size. *)
Lemma listener_tools s0 s t e h :
  queue h = [] ->
  currentColor (reduce s0 (queue (heapOf (listener s t e h)))) = currentColor s0
  /\ brushSize (reduce s0 (queue (heapOf (listener s t e h)))) = brushSize s0.
Proof.
  intros Hq.
  destruct t; cbn [listener];
    try (rewrite startDrawing_spec; destruct (canvasRef h);
         [destruct (clientPoint e) as [[cx cy]|]|];
         cbn [heapOf enqueue set_defaultPrevented queue]; rewrite Hq;
         split; reflexivity);
    try (rewrite stopDrawing_spec; cbn [heapOf enqueue queue]; rewrite Hq;
         split; reflexivity);
    destruct (draw_outcome s e h);
    cbn [heapOf enqueue set_defaultPrevented set_canvasRef queue]; rewrite Hq;
    split; reflexivity.
Qed.

Lemma step_tools a w :
  (currentColor (state (step a w)) = currentColor (state w)
   \/ In (currentColor (state (step a w))) colors)
  /\ (brushSize (state (step a w)) = brushSize (state w)
      \/ sliderWidth (brushSize (state (step a w)))).
Proof.
  destruct a as [t e|i|n| |r].
  - cbn [step]. destruct (attached w); [|split; left; reflexivity].
    rewrite handle_state.
    destruct (listener_tools (state w) (state w) t e (enter w) eq_refl) as [-> ->].
    split; left; reflexivity.
  - destruct (nth_error colors i) as [color|] eqn:Hi.
    + rewrite (click_state i color w Hi). cbn [reducer currentColor brushSize].
      split; [right; eapply nth_error_In; eassumption|left; reflexivity].
    + cbn [step]. rewrite Hi. split; left; reflexivity.
  - rewrite slide_state. cbn [reducer currentColor brushSize].
    split; [left; reflexivity|right].
    exists (Z.max sliderMin (Z.min sliderMax n)). split; [apply slider_clamped|reflexivity].
  - rewrite clear_commit. split; left; reflexivity.
  - split; left; reflexivity.
Qed.

End Tools.

(** C8. The palette has 15 entries.  In every world a mounted component
    can reach, the colour is one of them and the brush size is an integer
    from 1 to 20.  The palette button [i] sets the colour to entry [i];
    the slider at [n], for [n] from 1 to 20, sets the brush size to [n];
    and wherever the slider is dragged, the brush size it sets is an
    integer from 1 to 20. *)
Theorem C8_tool_state :
  List.length colors = 15%nat
  /\ (forall w, reachable w ->
        In (currentColor (state w)) colors /\ sliderWidth (brushSize (state w)))
  /\ (forall w i color, nth_error colors i = Some color ->
        currentColor (state (step (ClickColor i) w)) = color)
  /\ (forall w n, (1 <= n <= 20)%Z ->
        brushSize (state (step (Slide n) w)) = number_of_Z n)
  /\ (forall w n, sliderWidth (brushSize (state (step (Slide n) w)))).
Proof.
  split; [reflexivity|]. split; [|split; [|split]].
  - induction 1 as [p el|a w Hw [IHc IHb]].
    + split; [left; reflexivity|].
      exists 3%Z. split; [unfold sliderMin, sliderMax; lia|vm_compute; reflexivity].
    + destruct (step_tools a w) as [[-> | Hc] [-> | Hb]]; split; assumption.
  - intros w i color Hi. rewrite (click_state i color w Hi). reflexivity.
  - intros w n Hn. rewrite slide_state, slider_same by exact Hn. reflexivity.
  - intros w n. rewrite slide_state. cbn [reducer brushSize].
    exists (Z.max sliderMin (Z.min sliderMax n)). split; [apply slider_clamped|reflexivity].
Qed.

Lemma C8_tool_state_witness :
  reachable (step (Slide 25) (step (ClickColor 1) (whiteboard fullSize)))
  /\ In (currentColor (state (step (Slide 25) (step (ClickColor 1) (whiteboard fullSize)))))
        colors
  /\ brushSize (state (step (Slide 7) unmounted)) = number_of_Z 7.
Proof.
  assert (R : reachable (step (Slide 25) (step (ClickColor 1) (whiteboard fullSize))))
    by (do 2 apply reach_step; apply reach_mount).
  destruct C8_tool_state as (_ & Hinv & _ & Hslide & _).
  split; [exact R|]. split.
  - exact (proj1 (Hinv _ R)).
  - apply Hslide. lia.
Defined.

Section Positions.

(** The stroke of [draw] when the anchor and the new position are
    finite and the brush size is a positive finite number. *)
Lemma strokeTo_segment s p k :
  finitePosition (lastPos s) = true -> finitePosition p = true ->
  isFinite (brushSize s) && (0 <? brushSize s) = true ->
  strokeTo s p k =
  {| strokeStyle := currentColor s; lineWidth := brushSize s;
     lineCap := round; lineJoin := join_round;
     path := [[ {| px := x (lastPos s); py := y (lastPos s) |};
                {| px := x p; py := y p |} ]];
     bitmap := bitmap k ++ [segment (lastPos s) p (currentColor s) (brushSize s)] |}.
Proof.
  unfold finitePosition, strokeTo, moveTo, lineTo, set_lineWidth.
  intros Ha Hp Hb. cbn [beginPath path]. rewrite Ha, Hp.
  cbn [set_path set_strokeStyle strokeStyle lineWidth lineCap lineJoin path
         bitmap app extendLast].
  rewrite Hb. reflexivity.
Qed.

End Positions.

(** C2, as stated, fails at the bottom-right corner: the default 800 by
    600 buffer rendered 390 by 292.5 resolves a click on that corner to
    the number just below 800 in x. *)
Lemma C2_bottom_right_rounds_down :
  option_map Canvas.width (element (whiteboard scaledDown)) = Some 800
  /\ getPosition (MouseEvent 390 292.5) (enter (whiteboard scaledDown))
     = Normal {| x := next_down 800; y := 600 |} (enter (whiteboard scaledDown))
  /\ (next_down 800 <? 800) = true.
Proof. repeat split; vm_compute; reflexivity. Qed.

(** C2, amended. On a canvas [c] behind the ref, [getPosition] returns
    the client coordinates less the origin of the bounding box, times
    buffer size over rendered size, per axis, in binary64 arithmetic; a
    touch event is read at its first touch.  A click on the top-left
    corner resolves to (0, 0) when the origin and both scale factors are
    finite.  A click whose offset from the origin is the rendered size
    resolves to (width, height) when the canvas is rendered at its buffer
    size, finite and not zero; under other scalings the product is
    rounded and may miss it. *)
Theorem C2_position_resolution (h : Heap) (c : Canvas.t) :
  canvasRef h = Some c ->
  (forall cx cy,
      getPosition (MouseEvent cx cy) h =
      Normal
        {| x := (cx - DOMRect.left (Canvas.boundingClientRect c))
                * (Canvas.width c / DOMRect.width (Canvas.boundingClientRect c));
           y := (cy - DOMRect.top (Canvas.boundingClientRect c))
                * (Canvas.height c / DOMRect.height (Canvas.boundingClientRect c)) |} h)
  /\ (forall t ts,
        getPosition (TouchEvent (t :: ts)) h =
        Normal
          {| x := (Touch.clientX t - DOMRect.left (Canvas.boundingClientRect c))
                  * (Canvas.width c / DOMRect.width (Canvas.boundingClientRect c));
             y := (Touch.clientY t - DOMRect.top (Canvas.boundingClientRect c))
                  * (Canvas.height c / DOMRect.height (Canvas.boundingClientRect c)) |} h)
  /\ (isFinite (DOMRect.left (Canvas.boundingClientRect c)) = true ->
      isFinite (DOMRect.top (Canvas.boundingClientRect c)) = true ->
      isFinite (scaleX c) = true -> isFinite (scaleY c) = true ->
      exists p,
        getPosition (MouseEvent (DOMRect.left (Canvas.boundingClientRect c))
                       (DOMRect.top (Canvas.boundingClientRect c))) h = Normal p h
        /\ (x p =? 0) = true /\ (y p =? 0) = true)
  /\ (DOMRect.width (Canvas.boundingClientRect c) = Canvas.width c ->
      DOMRect.height (Canvas.boundingClientRect c) = Canvas.height c ->
      isFinite (Canvas.width c) = true -> isFinite (Canvas.height c) = true ->
      (Canvas.width c =? 0) = false -> (Canvas.height c =? 0) = false ->
      forall cx cy,
        cx - DOMRect.left (Canvas.boundingClientRect c)
          = DOMRect.width (Canvas.boundingClientRect c) ->
        cy - DOMRect.top (Canvas.boundingClientRect c)
          = DOMRect.height (Canvas.boundingClientRect c) ->
        getPosition (MouseEvent cx cy) h
        = Normal {| x := Canvas.width c; y := Canvas.height c |} h).
Proof.
  intros Hc. split; [|split; [|split]].
  - intros cx cy. rewrite getPosition_spec, Hc. reflexivity.
  - intros t ts. rewrite getPosition_spec, Hc. reflexivity.
  - intros Hl Ht Hx Hy. eexists. split.
    + rewrite getPosition_spec, Hc. reflexivity.
    + unfold toSurface. cbn [x y]. rewrite (sub_diag _ Hl), (sub_diag _ Ht).
      split; apply mul_zero_l; assumption.
  - intros Hw Hh Fw Fh Zw Zh cx cy Ex Ey.
    rewrite getPosition_spec, Hc. cbn [clientPoint]. unfold toSurface, scaleX, scaleY.
    rewrite Ex, Ey, Hw, Hh, (div_diag _ Fw Zw), (div_diag _ Fh Zh),
      (mul_one_r _ Fw), (mul_one_r _ Fh).
    reflexivity.
Qed.

Lemma C2_position_resolution_witness :
  canvasRef (enter (whiteboard scaledDown))
  = Some (sized (destructure noProps) (createCanvas scaledDown true))
  /\ getPosition (TouchEvent [Touch.make 195 0; Touch.make 7 7])
       (enter (whiteboard scaledDown))
     = Normal {| x := (195 - 0) * (800 / 390); y := (0 - 0) * (600 / 292.5) |}
         (enter (whiteboard scaledDown)).
Proof.
  assert (E : canvasRef (enter (whiteboard scaledDown))
              = Some (sized (destructure noProps) (createCanvas scaledDown true)))
    by reflexivity.
  split; [exact E|].
  destruct (C2_position_resolution (enter (whiteboard scaledDown)) _ E) as (_ & Ht & _).
  rewrite (Ht (Touch.make 195 0) [Touch.make 7 7]).
  vm_compute. reflexivity.
Defined.

(** C1. The code does not keep what [draw] paints.  On the default
    whiteboard, after a mouse-down at (10, 10), the move to (20, 20) makes
    [draw] paint the black segment of width 3 from the anchor, and the
    commit of that same event leaves the surface blank with the anchor at
    (20, 20): [setLastPos] makes [draw] a new function, the set-up effect
    depends on [draw], and it assigns [canvas.width] and [canvas.height]
    again.  A stroke that is on the surface is likewise erased by the
    commit after a palette click or a slider change. *)
Theorem C1_stroke_erased_by_rerender :
  option_map bitmap
    (contextOf
       (heapOf
          (draw (state (step (Dispatch mousedown (MouseEvent 10 10)) (whiteboard fullSize)))
             (MouseEvent 20 20)
             (enter (step (Dispatch mousedown (MouseEvent 10 10)) (whiteboard fullSize))))))
  = Some [segment {| x := 10; y := 10 |} {| x := 20; y := 20 |} "#000000" 3]
  /\ surface (run [Dispatch mousedown (MouseEvent 10 10);
                   Dispatch mousemove (MouseEvent 20 20)] (whiteboard fullSize)) = []
  /\ lastPos (state (run [Dispatch mousedown (MouseEvent 10 10);
                          Dispatch mousemove (MouseEvent 20 20)] (whiteboard fullSize)))
     = {| x := 20; y := 20 |}
  /\ surface inked = [redStroke]
  /\ surface (step (ClickColor 2) inked) = []
  /\ surface (step (Slide 9) inked) = [].
Proof. repeat split; vm_compute; reflexivity. Qed.

(** * Further properties of the component *)

Section SetUp.

(** Whatever is behind the ref, the world the set-up effect builds is
    settled. *)
Lemma setupResult_settles p s h ob :
  settled {| props := p; state := s;
             element := canvasRef (setupResult p h);
             attached := listening (setupResult p h); outbox := ob |}.
Proof.
  destruct h as [hc hl hd hq hp]. unfold setupResult, contextOf, settled.
  destruct hc as [[cw ch cr [k|]]|]; cbn; auto.
Qed.

Lemma clearRect_ready bw bh x y w h :
  clearRect bw bh x y w h readyContext = readyContext.
Proof.
  unfold clearRect.
  destruct (isFinite x && isFinite y && isFinite w && isFinite h); [|reflexivity].
  destruct (covers bw bh x y w h); reflexivity.
Qed.

Lemma drawChanged_setLastPos s q p : drawChanged s (q ++ [setLastPos p]) = true.
Proof.
  unfold drawChanged. rewrite existsb_app. cbn [existsb replacesLastPos].
  rewrite !orb_true_r. reflexivity.
Qed.

(** In a settled world a callback of an action either leaves canvas and
    listeners alone or queues a call that makes [draw] a new function. *)
Lemma callback_benign a w k :
  settled w -> callbackOf a w = Some k ->
  listening (heapOf (k (state w) (enter w))) = attached w
  /\ (canvasRef (heapOf (k (state w) (enter w))) = element w
      \/ drawChanged (state w) (queue (heapOf (k (state w) (enter w)))) = true).
Proof.
  intros Hs. destruct a as [t e|i|n| |r]; cbn [callbackOf].
  - destruct (attached w) eqn:Ha; [|discriminate]. intros [= <-].
    split; [rewrite (proj2 (listener_frame (state w) t e (enter w))); exact Ha|].
    destruct t; cbn [listener];
      try (left; rewrite startDrawing_spec; destruct (canvasRef (enter w));
           [destruct (clientPoint e) as [[cx cy]|]|]; reflexivity);
      try (left; rewrite stopDrawing_spec; reflexivity);
      (destruct (draw_outcome (state w) e (enter w));
       [left; reflexivity|left; reflexivity|left; reflexivity|
        right; cbn [heapOf enqueue queue set_canvasRef set_defaultPrevented enter app];
        apply (drawChanged_setLastPos (state w) [])]).
  - destruct (nth_error colors i); [|discriminate]. intros [= <-].
    split; [reflexivity|left; reflexivity].
  - intros [= <-]. split; [reflexivity|left; reflexivity].
  - intros [= <-]. split; [apply (clearCanvas_frame (enter w))|left].
    destruct (contextOf (enter w)) as [k0|] eqn:Hk.
    + unfold contextOf in Hk. cbn [enter canvasRef] in Hk.
      destruct (element w) as [c|] eqn:Hc; [|discriminate].
      rewrite (clearCanvas_with_context (enter w) c k0
                 ltac:(cbn [enter canvasRef]; exact Hc) Hk).
      cbn [heapOf canvasRef set_canvasRef]. f_equal.
      unfold settled in Hs. rewrite Hc, Hk in Hs. destruct Hs as (_ & -> & _).
      rewrite clearRect_ready. destruct c as [cw ch cr ck]. cbn in Hk. subst ck.
      reflexivity.
    + rewrite (clearCanvas_without_context _ Hk). reflexivity.
  - discriminate.
Qed.

Lemma step_settled a w : settled w -> settled (step a w).
Proof.
  intros Hs. destruct (callbackOf a w) as [k|] eqn:Hk.
  - rewrite (step_callback a w k Hk). unfold handle. rewrite commit_spec. cbv zeta.
    destruct (callback_benign a w k Hs Hk) as [Hl [Hc|Hd]].
    + destruct (drawChanged (state w) (queue (heapOf (k (state w) (enter w))))).
      * apply setupResult_settles.
      * rewrite Hl, Hc. unfold settled in *. cbn [element attached props]. exact Hs.
    + rewrite Hd. apply setupResult_settles.
  - destruct a as [t e|i|n| |r]; cbn [callbackOf step] in *.
    + destruct (attached w); [discriminate|exact Hs].
    + destruct (nth_error colors i); [discriminate|exact Hs].
    + discriminate.
    + discriminate.
    + unfold settled in *. cbn [element attached props].
      destruct (element w) as [[cw ch cr [k|]]|]; cbn; exact Hs.
Qed.

Lemma mount_settled p el : settled (mount p el).
Proof.
  unfold settled, mount. destruct el as [[cw ch cr [k|]]|]; cbn; auto.
Qed.

Lemma settled_blank w : settled w -> surface w = [].
Proof.
  unfold settled, surface, contextOf. cbn [enter canvasRef].
  destruct (element w) as [[cw ch cr [k|]]|]; cbn; try reflexivity.
  intros (_ & -> & _). reflexivity.
Qed.

End SetUp.

(** X1. Between two events the component is always as its set-up effect
    leaves it: listeners are on the canvas exactly when there is a canvas
    with a 2D context, that canvas has the buffer size of the props, its
    context is in the default state but for round caps and joins, and its
    surface is blank. *)
Theorem X1_reachable_settled (w : World) :
  reachable w -> settled w /\ surface w = [].
Proof.
  intros H. assert (Hs : settled w).
  { induction H as [p el|a w Hw IH]; [apply mount_settled|apply step_settled, IH]. }
  split; [exact Hs|apply settled_blank, Hs].
Qed.

Lemma X1_reachable_settled_witness :
  reachable (run [Dispatch touchstart (TouchEvent [Touch.make 3 4]);
                  Dispatch touchmove (TouchEvent [Touch.make 30 40])]
               (whiteboard scaledDown))
  /\ surface (run [Dispatch touchstart (TouchEvent [Touch.make 3 4]);
                   Dispatch touchmove (TouchEvent [Touch.make 30 40])]
                (whiteboard scaledDown)) = [].
Proof.
  assert (R : reachable (run [Dispatch touchstart (TouchEvent [Touch.make 3 4]);
                              Dispatch touchmove (TouchEvent [Touch.make 30 40])]
                           (whiteboard scaledDown)))
    by (do 2 apply reach_step; apply reach_mount).
  split; [exact R|apply (X1_reachable_settled _ R)].
Defined.

(** X2. [draw] only ever adds to the surface: what was painted before is
    still there, in order, followed by nothing when the session is idle
    or the event carries no point, and by exactly the round segment from
    the anchor to the resolved position, in the colour and width of the
    state, when anchor and position are finite and the width is a positive
    finite number. *)
Theorem X2_draw_appends (s : State) (e : Event) (h : Heap) (c : Canvas.t) (k : Context2D) :
  canvasRef h = Some c -> Canvas.context2d c = Some k ->
  exists ops,
    option_map bitmap (contextOf (heapOf (draw s e h))) = Some (bitmap k ++ ops)
    /\ (isDrawing s = false \/ clientPoint e = None -> ops = [])
    /\ (forall cx cy,
          isDrawing s = true -> clientPoint e = Some (cx, cy) ->
          finitePosition (lastPos s) = true ->
          finitePosition (toSurface c cx cy) = true ->
          isFinite (brushSize s) && (0 <? brushSize s) = true ->
          ops = [segment (lastPos s) (toSurface c cx cy) (currentColor s) (brushSize s)]).
Proof.
  intros Hc Hk.
  assert (Hctx : contextOf h = Some k) by (unfold contextOf; rewrite Hc; exact Hk).
  destruct (isDrawing s) eqn:Hs.
  - destruct (clientPoint e) as [[cx cy]|] eqn:He.
    + rewrite (draw_active s e h c k cx cy Hs Hc Hk He).
      exists [Stroked {| stroke_path :=
                           path (lineTo (x (toSurface c cx cy)) (y (toSurface c cx cy))
                                   (moveTo (x (lastPos s)) (y (lastPos s)) (beginPath k)));
                         stroke_style := currentColor s;
                         stroke_width :=
                           lineWidth (set_lineWidth (brushSize s)
                                        (set_strokeStyle (currentColor s)
                                           (lineTo (x (toSurface c cx cy))
                                              (y (toSurface c cx cy))
                                              (moveTo (x (lastPos s)) (y (lastPos s))
                                                 (beginPath k)))));
                         stroke_cap := round; stroke_join := join_round |}].
      split; [|split].
      * destruct c as [cw ch cr ck]. cbn in Hk. subst ck.
        cbn [heapOf contextOf enqueue set_canvasRef canvasRef set_context
               Canvas.context2d option_map].
        unfold strokeTo, stroke, moveTo, lineTo, set_lineWidth.
        destruct (isFinite (x (lastPos s)) && isFinite (y (lastPos s)));
          destruct (isFinite (x (toSurface _ cx cy)) && isFinite (y (toSurface _ cx cy)));
          destruct (isFinite (brushSize s) && (0 <? brushSize s)); reflexivity.
      * intros [H|H]; discriminate H.
      * intros cx' cy' _ [= <- <-] Ha Hp Hb.
        unfold finitePosition in Ha, Hp. unfold moveTo, lineTo, set_lineWidth.
        cbn [beginPath path]. rewrite Ha, Hp.
        cbn [set_path set_strokeStyle strokeStyle lineWidth lineCap lineJoin path
               bitmap app extendLast].
        rewrite Hb. reflexivity.
    + exists []. rewrite (draw_malformed s e h c k Hs Hc Hk He).
      cbn [heapOf]. unfold contextOf in *. cbn [canvasRef set_defaultPrevented].
      rewrite Hctx, app_nil_r. split; [reflexivity|]. split; [reflexivity|].
      intros cx cy _ H. discriminate H.
  - exists []. rewrite (draw_idle s e h Hs). cbn [heapOf].
    rewrite Hctx, app_nil_r. split; [reflexivity|]. split; [reflexivity|].
    intros cx cy H. discriminate H.
Qed.

Lemma X2_draw_appends_witness :
  exists ops,
    option_map bitmap
      (contextOf (heapOf (draw (reducer initialState (setIsDrawing true))
                            (MouseEvent 40 30) (enter inked))))
    = Some ([redStroke] ++ ops)
    /\ ops = [segment {| x := 0; y := 0 |} {| x := 40; y := 30 |} "#000000" 3].
Proof.
  destruct (X2_draw_appends (reducer initialState (setIsDrawing true))
              (MouseEvent 40 30) (enter inked)
              {| Canvas.width := 800; Canvas.height := 600;
                 Canvas.boundingClientRect := fullSize;
                 Canvas.context2d := Some (set_bitmap [redStroke] readyContext) |}
              (set_bitmap [redStroke] readyContext))
    as (ops & Hb & _ & Hseg); [vm_compute; reflexivity|reflexivity|].
  exists ops. split; [exact Hb|].
  rewrite (Hseg 40 30); [vm_compute; reflexivity|reflexivity|reflexivity| | |];
    vm_compute; reflexivity.
Defined.

Section Inert.

Lemma handle_nothing k w :
  heapOf (k (state w) (enter w)) = enter w
  \/ heapOf (k (state w) (enter w)) = set_defaultPrevented true (enter w) ->
  handle k w = w.
Proof.
  intros [H|H]; unfold handle; rewrite H; apply commit_nothing; reflexivity.
Qed.

End Inert.

(** X3. A touch event without a touch point on a mounted canvas is
    inert: [touches[0].clientX] throws before any setter is called or
    anything is drawn, so a [touchstart] or [touchmove] (or a mouse event
    type carrying such an event) leaves the world as it was. *)
Theorem X3_touch_without_point_is_inert (w : World) (t : EventType) (c : Canvas.t) :
  element w = Some c -> endsStroke t = false ->
  startDrawing (TouchEvent []) (enter w)
    = TypeError (set_defaultPrevented true (enter w))
  /\ step (Dispatch t (TouchEvent [])) w = w.
Proof.
  intros Hc Ht. split.
  - rewrite startDrawing_spec. cbn [enter canvasRef]. rewrite Hc. reflexivity.
  - cbn [step]. destruct (attached w); [|reflexivity].
    apply handle_nothing.
    destruct t; try discriminate Ht; cbn [listener].
    + right. rewrite startDrawing_spec. cbn [enter canvasRef]. rewrite Hc. reflexivity.
    + destruct (draw_outcome (state w) (TouchEvent []) (enter w)) as [| | |c0 k0 cx cy H1 H2 H3 H4];
        [left|right|right|discriminate H4]; reflexivity.
    + right. rewrite startDrawing_spec. cbn [enter canvasRef]. rewrite Hc. reflexivity.
    + destruct (draw_outcome (state w) (TouchEvent []) (enter w)) as [| | |c0 k0 cx cy H1 H2 H3 H4];
        [left|right|right|discriminate H4]; reflexivity.
Qed.

Lemma X3_touch_without_point_is_inert_witness :
  step (Dispatch touchstart (TouchEvent [])) (whiteboard fullSize) = whiteboard fullSize.
Proof.
  apply (proj2 (X3_touch_without_point_is_inert (whiteboard fullSize) touchstart
                  (sized (destructure noProps) (createCanvas fullSize true))
                  eq_refl eq_refl)).
Defined.

(** X4. While no session is active a [mousemove] or [touchmove] does
    nothing at all: no default is prevented, nothing is drawn, no state
    cell is written, no effect runs. *)
Theorem X4_idle_move_is_noop (w : World) (t : EventType) (e : Event) :
  isDrawing (state w) = false -> extendsStroke t = true ->
  draw (state w) e (enter w) = Normal tt (enter w)
  /\ step (Dispatch t e) w = w.
Proof.
  intros Hd Ht. split; [apply draw_idle, Hd|].
  cbn [step]. destruct (attached w); [|reflexivity].
  apply handle_nothing. left.
  destruct t; try discriminate Ht; cbn [listener]; rewrite (draw_idle _ e _ Hd);
    reflexivity.
Qed.

Lemma X4_idle_move_is_noop_witness :
  step (Dispatch touchmove (TouchEvent [])) unmounted = unmounted
  /\ step (Dispatch mousemove (MouseEvent 1 2)) inked = inked.
Proof.
  split.
  - apply (proj2 (X4_idle_move_is_noop unmounted touchmove (TouchEvent [])
                    eq_refl eq_refl)).
  - apply (proj2 (X4_idle_move_is_noop inked mousemove (MouseEvent 1 2)
                    eq_refl eq_refl)).
Defined.

Section Strokes.

Lemma reachable_is_settled w : reachable w -> settled w.
Proof.
  induction 1 as [p el|a w Hw IH]; [apply mount_settled|apply step_settled, IH].
Qed.

(** The canvas of a settled world with listeners. *)
Lemma settled_canvas w c :
  settled w -> attached w = true -> element w = Some c ->
  c = sized (props w) c.
Proof.
  unfold settled. intros Hs Ha Hc. rewrite Hc in Hs.
  destruct c as [cw ch cr [k|]]; cbn in Hs.
  - destruct Hs as (_ & -> & -> & ->). reflexivity.
  - congruence.
Qed.

Lemma begins_listener s t e : beginsStroke t = true -> listener s t e = startDrawing e.
Proof. destruct t; cbn; intros H; try discriminate H; reflexivity. Qed.

Lemma extends_listener s t e : extendsStroke t = true -> listener s t e = draw s e.
Proof. destruct t; cbn; intros H; try discriminate H; reflexivity. Qed.

Lemma sliderWidth_valid v : sliderWidth v -> isFinite v && (0 <? v) = true.
Proof.
  unfold sliderWidth, sliderMin, sliderMax. intros (m & Hm & ->).
  assert (H : (m = 1 \/ m = 2 \/ m = 3 \/ m = 4 \/ m = 5 \/ m = 6 \/ m = 7
               \/ m = 8 \/ m = 9 \/ m = 10 \/ m = 11 \/ m = 12 \/ m = 13
               \/ m = 14 \/ m = 15 \/ m = 16 \/ m = 17 \/ m = 18 \/ m = 19
               \/ m = 20)%Z) by lia.
  repeat (destruct H as [->|H]; [vm_compute; reflexivity|]).
  subst m. vm_compute. reflexivity.
Qed.

Lemma reachable_brush w : reachable w -> sliderWidth (brushSize (state w)).
Proof.
  induction 1 as [p el|a w Hw IH].
  - exists 3%Z. split; [unfold sliderMin, sliderMax; lia|vm_compute; reflexivity].
  - destruct (step_tools a w) as [_ [-> | Hb]]; assumption.
Qed.

End Strokes.

Lemma begin_commit (w : World) (t : EventType) (e : Event)
        (c : Canvas.t) (cx cy : number) :
  settled w -> attached w = true -> element w = Some c ->
  beginsStroke t = true -> clientPoint e = Some (cx, cy) ->
  step (Dispatch t e) w =
  {| props := props w;
     state := {| isDrawing := true; currentColor := currentColor (state w);
                 brushSize := brushSize (state w); lastPos := toSurface c cx cy |};
     element := Some c; attached := true;
     outbox := outbox w ++ (if isDrawing (state w) then [] else completionPosts) |}.
Proof.
  intros Hs Ha Hc Ht He.
  pose proof (settled_canvas w c Hs Ha Hc) as Hsz.
  cbn [step]. rewrite Ha. unfold handle.
  rewrite (begins_listener (state w) t e Ht), startDrawing_spec.
  cbn [enter canvasRef]. rewrite Hc, He, commit_spec.
  cbn [heapOf queue posted enqueue set_defaultPrevented enter].
  rewrite drawChanged_setLastPos. cbv zeta.
  unfold activates, setupResult, contextOf.
  cbn [canvasRef enqueue set_defaultPrevented app reduce fold_left reducer isDrawing
         currentColor brushSize lastPos enter].
  rewrite Hc. clear Hc. destruct c as [cw ch cr ck]. cbn in Hsz.
  injection Hsz as -> -> ->. cbn [Canvas.context2d sized Canvas.boundingClientRect
                                    set_listening set_canvasRef canvasRef listening].
  rewrite andb_true_r. destruct (isDrawing (state w)); reflexivity.
Qed.


(** X5. On a canvas with listeners, as the set-up effect leaves it, a
    [mousedown] or [touchstart] that carries a point makes the session
    active with the resolved position as anchor, keeps colour and brush
    size, leaves canvas and listeners as they are, and posts the
    completion pair only if the session was idle: a second finger or
    button while drawing only moves the anchor. *)
Theorem X5_begin_stroke (w : World) (t : EventType) (e : Event)
        (c : Canvas.t) (cx cy : number) :
  settled w -> attached w = true -> element w = Some c ->
  beginsStroke t = true -> clientPoint e = Some (cx, cy) ->
  step (Dispatch t e) w =
  {| props := props w;
     state := {| isDrawing := true; currentColor := currentColor (state w);
                 brushSize := brushSize (state w); lastPos := toSurface c cx cy |};
     element := Some c; attached := true;
     outbox := outbox w ++ (if isDrawing (state w) then [] else completionPosts) |}.
Proof. apply begin_commit. Qed.

Lemma X5_begin_stroke_witness :
  lastPos (state (step (Dispatch touchstart (TouchEvent [Touch.make 39 29.25]))
                    (whiteboard scaledDown)))
  = toSurface (sized (destructure noProps) (createCanvas scaledDown true)) 39 29.25.
Proof.
  rewrite (X5_begin_stroke (whiteboard scaledDown) touchstart
             (TouchEvent [Touch.make 39 29.25])
             (sized (destructure noProps) (createCanvas scaledDown true)) 39 29.25
             (mount_settled _ _) eq_refl eq_refl eq_refl eq_refl).
  reflexivity.
Defined.

Section Extend.

Lemma settled_context w c :
  settled w -> attached w = true -> element w = Some c ->
  Canvas.context2d c = Some readyContext.
Proof.
  intros Hs Ha Hc. rewrite (settled_canvas w c Hs Ha Hc). reflexivity.
Qed.

(** What [draw] paints, and the world after a move, in a settled world
    with an active session. *)
Lemma extend_commit w t e c cx cy :
  settled w -> attached w = true -> element w = Some c ->
  isDrawing (state w) = true -> extendsStroke t = true ->
  clientPoint e = Some (cx, cy) ->
  option_map bitmap (contextOf (heapOf (draw (state w) e (enter w))))
  = Some (bitmap (strokeTo (state w) (toSurface c cx cy) readyContext))
  /\ step (Dispatch t e) w =
     {| props := props w;
        state := {| isDrawing := true; currentColor := currentColor (state w);
                    brushSize := brushSize (state w); lastPos := toSurface c cx cy |};
        element := Some c; attached := true; outbox := outbox w |}.
Proof.
  intros Hs Ha Hc Hd Ht He.
  pose proof (settled_canvas w c Hs Ha Hc) as Hsz.
  pose proof (settled_context w c Hs Ha Hc) as Hk.
  assert (Hdraw := draw_active (state w) e (enter w) c readyContext cx cy Hd Hc Hk He).
  split.
  - rewrite Hdraw. destruct c as [cw ch cr ck]. reflexivity.
  - cbn [step]. rewrite Ha. unfold handle.
    rewrite (extends_listener (state w) t e Ht), Hdraw, commit_spec.
    cbn [heapOf queue posted enqueue set_defaultPrevented set_canvasRef enter].
    rewrite drawChanged_setLastPos. cbv zeta.
    unfold activates, setupResult, contextOf.
    cbn [canvasRef enqueue set_defaultPrevented set_canvasRef app reduce fold_left
           reducer isDrawing currentColor brushSize lastPos enter].
    rewrite Hd. destruct c as [cw ch cr ck]. cbn in Hsz.
    injection Hsz as -> -> ->.
    cbn [Canvas.context2d set_context sized Canvas.boundingClientRect
           set_listening set_canvasRef canvasRef listening negb andb].
    rewrite app_nil_r. reflexivity.
Qed.

End Extend.

(** X6. Begin, then extend.  In a reachable world with listeners, after a
    [mousedown] or [touchstart] at one point, [draw] for an event at a
    second point paints, on the blank surface, exactly the round segment
    between the two resolved positions in the current colour and brush
    size (both positions finite); and once the move is committed the
    anchor is the second position, the session is still active, the tools
    are unchanged and the surface is blank again. *)
Theorem X6_begin_then_extend (w : World) (c : Canvas.t)
        (t0 t1 : EventType) (e0 e1 : Event) (cx0 cy0 cx1 cy1 : number) :
  reachable w -> attached w = true -> element w = Some c ->
  beginsStroke t0 = true -> clientPoint e0 = Some (cx0, cy0) ->
  extendsStroke t1 = true -> clientPoint e1 = Some (cx1, cy1) ->
  finitePosition (toSurface c cx0 cy0) = true ->
  finitePosition (toSurface c cx1 cy1) = true ->
  option_map bitmap
    (contextOf (heapOf (draw (state (step (Dispatch t0 e0) w)) e1
                          (enter (step (Dispatch t0 e0) w)))))
  = Some [segment (toSurface c cx0 cy0) (toSurface c cx1 cy1)
            (currentColor (state w)) (brushSize (state w))]
  /\ state (step (Dispatch t1 e1) (step (Dispatch t0 e0) w))
     = {| isDrawing := true; currentColor := currentColor (state w);
          brushSize := brushSize (state w); lastPos := toSurface c cx1 cy1 |}
  /\ surface (step (Dispatch t1 e1) (step (Dispatch t0 e0) w)) = [].
Proof.
  intros Hr Ha Hc Ht0 He0 Ht1 He1 Hf0 Hf1.
  pose proof (reachable_is_settled w Hr) as Hs.
  pose proof (sliderWidth_valid _ (reachable_brush w Hr)) as Hb.
  pose proof (step_settled (Dispatch t0 e0) w Hs) as Hs1.
  rewrite (begin_commit w t0 e0 c cx0 cy0 Hs Ha Hc Ht0 He0) in *.
  match goal with |- context [draw (state ?v)] => set (w1 := v) in * end.
  destruct (extend_commit w1 t1 e1 c cx1 cy1 Hs1 eq_refl eq_refl eq_refl Ht1 He1)
    as [Hpaint Hstep].
  split; [|split].
  - rewrite Hpaint. f_equal.
    rewrite (strokeTo_segment (state w1) (toSurface c cx1 cy1) readyContext Hf0 Hf1 Hb).
    reflexivity.
  - rewrite Hstep. reflexivity.
  - apply settled_blank, step_settled, Hs1.
Qed.

Lemma X6_begin_then_extend_witness :
  option_map bitmap
    (contextOf
       (heapOf (draw (state (step (Dispatch mousedown (MouseEvent 10 10))
                               (whiteboard fullSize)))
                  (TouchEvent [Touch.make 20 20])
                  (enter (step (Dispatch mousedown (MouseEvent 10 10))
                            (whiteboard fullSize))))))
  = Some [segment {| x := 10; y := 10 |} {| x := 20; y := 20 |} "#000000" 3].
Proof.
  refine (eq_trans
            (proj1 (X6_begin_then_extend (whiteboard fullSize)
                      (sized (destructure noProps) (createCanvas fullSize true))
                      mousedown touchmove (MouseEvent 10 10)
                      (TouchEvent [Touch.make 20 20]) 10 10 20 20
                      (reach_mount _ _) eq_refl eq_refl eq_refl eq_refl eq_refl eq_refl
                      _ _)) _);
    vm_compute; reflexivity.
Defined.

Section NoContext.

Lemma mount_inert p el : contextOfElement el = None -> inert (mount p el).
Proof.
  unfold inert, mount, contextOfElement, contextOf.
  destruct el as [[cw ch cr [k|]]|]; cbn; intros H; try discriminate H;
    repeat split; reflexivity.
Qed.

Lemma setupResult_without_context p h :
  contextOf h = None -> setupResult p h = set_listening false h.
Proof. unfold setupResult. intros ->. reflexivity. Qed.

Lemma tool_commit_inert w u :
  inert w -> replacesLastPos u = false -> isDrawing (reducer (state w) u) = false ->
  lastPos (reducer (state w) u) = lastPos (state w) ->
  inert (commit w (enqueue u (enter w))).
Proof.
  intros (Hk & Ha & Hd & Hl & Ho) Hu Hd' Hl'. rewrite commit_spec.
  cbn [queue posted enqueue enter app]. cbv zeta.
  unfold activates. cbn [reduce fold_left]. rewrite Hd', andb_false_r.
  assert (E : contextOf (enqueue u (enter w)) = None) by exact Hk.
  rewrite (setupResult_without_context (props w) _ E).
  unfold inert, contextOf in *.
  destruct (drawChanged (state w) [u]);
    cbn [enter canvasRef element attached state outbox set_listening enqueue listening] in *;
    rewrite Hk, Hd', Hl', Hl, Ho, ?Ha; repeat split; reflexivity.
Qed.

Lemma step_inert a w : inert w -> inert (step a w).
Proof.
  intros Hi. pose proof Hi as (Hk & Ha & Hd & Hl & Ho).
  destruct a as [t e|i|n| |r]; cbn [step].
  - rewrite Ha. exact Hi.
  - destruct (nth_error colors i) as [color|]; [|exact Hi].
    apply (tool_commit_inert w (setCurrentColor color) Hi); [reflexivity|exact Hd|reflexivity].
  - apply (tool_commit_inert w (setBrushSize (parseInt (sliderValue n))) Hi);
      [reflexivity|exact Hd|reflexivity].
  - fold (step ClickClear w). rewrite clear_commit, (clearCanvas_without_context _ Hk).
    destruct w as [p s el att ob]. exact Hi.
  - unfold inert, contextOf in *. cbn [enter canvasRef element attached state outbox] in *.
    destruct (element w) as [[cw ch cr ck]|]; cbn in *; repeat split; assumption.
Qed.

Lemma run_inert acts : forall w, inert w -> inert (run acts w).
Proof.
  induction acts as [|a acts IH]; intros w Hw; [exact Hw|].
  apply (IH (step a w)), step_inert, Hw.
Qed.

End NoContext.

(** X7. A component mounted without a canvas, or on a canvas that gives
    no 2D context, stays inert whatever happens next: no listener is ever
    attached, the session never becomes active, the anchor stays (0, 0)
    and no message is ever posted; the toolbar still sets colour and brush
    size. *)
Theorem X7_inert_without_context (p : BlockProps) (el : option Canvas.t)
        (acts : list Action) :
  contextOfElement el = None ->
  attached (run acts (mount p el)) = false
  /\ isDrawing (state (run acts (mount p el))) = false
  /\ lastPos (state (run acts (mount p el))) = {| x := 0; y := 0 |}
  /\ outbox (run acts (mount p el)) = []
  /\ surface (run acts (mount p el)) = [].
Proof.
  intros H. destruct (run_inert acts _ (mount_inert p el H)) as (Hk & Ha & Hd & Hl & Ho).
  repeat split; try assumption.
  unfold surface. rewrite Hk. reflexivity.
Qed.

Lemma X7_inert_without_context_witness :
  isDrawing (state (run [Dispatch mousedown (MouseEvent 1 1); ClickColor 3; Slide 12;
                         Dispatch touchstart (TouchEvent [Touch.make 2 2])]
                      (mount noProps (Some (createCanvas fullSize false))))) = false
  /\ currentColor (state (run [Dispatch mousedown (MouseEvent 1 1); ClickColor 3; Slide 12;
                               Dispatch touchstart (TouchEvent [Touch.make 2 2])]
                            (mount noProps (Some (createCanvas fullSize false)))))
     = "#0000FF"%string.
Proof.
  split; [|reflexivity].
  apply (X7_inert_without_context noProps (Some (createCanvas fullSize false))
           [Dispatch mousedown (MouseEvent 1 1); ClickColor 3; Slide 12;
            Dispatch touchstart (TouchEvent [Touch.make 2 2])] eq_refl).
Defined.

Section Messages.

(** The outbox after any action, for any world. *)
Lemma step_outbox a w :
  outbox (step a w) =
  outbox w ++
  (if negb (isDrawing (state w)) && isDrawing (state (step a w))
   then completionPosts else []).
Proof.
  destruct (callbackOf a w) as [k|] eqn:Hk.
  - rewrite (step_callback a w k Hk).
    apply handle_outbox, (callback_posts_nothing a w k Hk).
  - destruct (step_no_callback a w Hk) as [-> ->].
    rewrite andb_negb_l, app_nil_r. reflexivity.
Qed.

Lemma paired_app l : paired l -> paired (l ++ completionPosts).
Proof.
  intros [n ->]. exists (S n).
  replace (S n) with (n + 1)%nat by lia.
  rewrite repeat_app, concat_app. cbn [repeat List.concat]. rewrite app_nil_r.
  reflexivity.
Qed.

End Messages.

(** X8. Nothing but completion pairs is ever posted: the outbox of a
    reachable world is a whole number of copies of the pair (window, then
    parent), so every message in it is the completion message with target
    origin "*". *)
Theorem X8_only_completion_pairs (w : World) :
  reachable w ->
  paired (outbox w)
  /\ Forall (fun m => data m = completionMessage /\ targetOrigin m = "*"%string)
       (outbox w).
Proof.
  intros H. assert (Hp : paired (outbox w)).
  { induction H as [p el|a w Hw IH].
    - exists 0%nat. destruct el as [[cw ch cr [k|]]|]; reflexivity.
    - rewrite step_outbox.
      destruct (negb (isDrawing (state w)) && isDrawing (state (step a w))).
      + apply paired_app, IH.
      + rewrite app_nil_r. exact IH. }
  split; [exact Hp|]. destruct Hp as [n ->].
  induction n as [|n IH]; cbn [repeat List.concat]; [constructor|].
  apply Forall_app. split; [|exact IH].
  repeat constructor.
Qed.

Lemma X8_only_completion_pairs_witness :
  paired (outbox (run (gesture 1 1 [MouseEvent 2 2] (MouseEvent 2 2)
                       ++ gesture 5 5 [] (MouseEvent 5 5)) (whiteboard fullSize))).
Proof.
  apply X8_only_completion_pairs.
  unfold run, gesture. cbn [map app fold_left].
  repeat apply reach_step. apply reach_mount.
Defined.

(** X9. The tools and the pointer session do not interfere: an event on the
    canvas never changes the colour or the brush size, and a palette
    click, a slider change, the clear button and a re-layout never change
    whether a session is active or where the anchor is, and post
    nothing. *)
Theorem X9_tools_and_session_are_separate (w : World) (a : Action) :
  (onCanvasEvent a = true ->
   currentColor (state (step a w)) = currentColor (state w)
   /\ brushSize (state (step a w)) = brushSize (state w))
  /\ (onCanvasEvent a = false ->
      isDrawing (state (step a w)) = isDrawing (state w)
      /\ lastPos (state (step a w)) = lastPos (state w)
      /\ outbox (step a w) = outbox w).
Proof.
  split; intros Ha.
  - destruct a as [t e|i|n| |r]; try discriminate Ha.
    cbn [step]. destruct (attached w); [|split; reflexivity].
    rewrite handle_state.
    apply (listener_tools (state w) (state w) t e (enter w) eq_refl).
  - assert (Hs : isDrawing (state (step a w)) = isDrawing (state w)
                 /\ lastPos (state (step a w)) = lastPos (state w)).
    { destruct a as [t e|i|n| |r]; try discriminate Ha.
      - destruct (nth_error colors i) as [color|] eqn:Hi.
        + rewrite (click_state i color w Hi). split; reflexivity.
        + cbn [step]. rewrite Hi. split; reflexivity.
      - rewrite slide_state. split; reflexivity.
      - rewrite clear_commit. split; reflexivity.
      - split; reflexivity. }
    destruct Hs as [Hd Hl]. split; [exact Hd|]. split; [exact Hl|].
    rewrite step_outbox, Hd, andb_negb_l, app_nil_r. reflexivity.
Qed.

Lemma X9_tools_and_session_are_separate_witness :
  onCanvasEvent (Slide 4) = false
  /\ isDrawing (state (step (Slide 4)
                         (step (Dispatch mousedown (MouseEvent 1 1)) (whiteboard fullSize))))
     = true.
Proof.
  split; [reflexivity|].
  rewrite (proj1 (proj2 (X9_tools_and_session_are_separate
                           (step (Dispatch mousedown (MouseEvent 1 1)) (whiteboard fullSize))
                           (Slide 4)) eq_refl)).
  reflexivity.
Defined.

Section Gestures.

Lemma pointless_inert w t e c :
  element w = Some c -> endsStroke t = false -> clientPoint e = None ->
  step (Dispatch t e) w = w.
Proof.
  intros Hc Ht He. cbn [step]. destruct (attached w); [|reflexivity].
  apply handle_nothing.
  destruct t; try discriminate Ht; cbn [listener];
    try (right; rewrite startDrawing_spec; cbn [enter canvasRef]; rewrite Hc, He;
         reflexivity);
    (destruct (draw_outcome (state w) e (enter w)) as [| | |c0 k0 cx cy H1 H2 H3 H4];
     [left|right|right|congruence]; reflexivity).
Qed.

Lemma settled_element w : settled w -> attached w = true -> exists c, element w = Some c.
Proof.
  unfold settled. intros Hs Ha. destruct (element w) as [c|]; [eauto|congruence].
Qed.

(** Moves during an active session keep it active, keep the tools and
    post nothing. *)
Lemma moves_keep moves : forall w,
  settled w -> attached w = true -> isDrawing (state w) = true ->
  settled (run (map (Dispatch mousemove) moves) w)
  /\ attached (run (map (Dispatch mousemove) moves) w) = true
  /\ isDrawing (state (run (map (Dispatch mousemove) moves) w)) = true
  /\ currentColor (state (run (map (Dispatch mousemove) moves) w)) = currentColor (state w)
  /\ brushSize (state (run (map (Dispatch mousemove) moves) w)) = brushSize (state w)
  /\ outbox (run (map (Dispatch mousemove) moves) w) = outbox w.
Proof.
  induction moves as [|e moves IH]; intros w Hs Ha Hd; [repeat split; assumption|].
  cbn [map run fold_left]. fold (run (map (Dispatch mousemove) moves) (step (Dispatch mousemove e) w)).
  destruct (settled_element w Hs Ha) as [c Hc].
  destruct (clientPoint e) as [[cx cy]|] eqn:He.
  - destruct (extend_commit w mousemove e c cx cy Hs Ha Hc Hd eq_refl He) as [_ Hst].
    pose proof (step_settled (Dispatch mousemove e) w Hs) as Hs1.
    rewrite Hst in *.
    destruct (IH _ Hs1 eq_refl eq_refl) as (H1 & H2 & H3 & H4 & H5 & H6).
    repeat split; assumption.
  - rewrite (pointless_inert w mousemove e c Hc eq_refl He). apply IH; assumption.
Qed.

Lemma run_app l1 l2 w : run (l1 ++ l2) w = run l2 (run l1 w).
Proof. apply fold_left_app. Qed.

End Gestures.

(** X10. A whole gesture.  From an idle world with listeners, a
    [mousedown] followed by any number of moves (also moves without a
    point) and a [mouseup] posts the completion pair exactly once, ends
    idle, leaves colour and brush size as they were and, as in every
    committed world, leaves nothing on the surface. *)
Theorem X10_gesture (w : World) (cx cy : number) (moves : list Event) (up : Event) :
  reachable w -> attached w = true -> isDrawing (state w) = false ->
  outbox (run (gesture cx cy moves up) w) = outbox w ++ completionPosts
  /\ isDrawing (state (run (gesture cx cy moves up) w)) = false
  /\ currentColor (state (run (gesture cx cy moves up) w)) = currentColor (state w)
  /\ brushSize (state (run (gesture cx cy moves up) w)) = brushSize (state w)
  /\ surface (run (gesture cx cy moves up) w) = [].
Proof.
  intros Hr Ha Hd. pose proof (reachable_is_settled w Hr) as Hs.
  destruct (settled_element w Hs Ha) as [c Hc].
  unfold gesture. cbn [run fold_left].
  fold (run (map (Dispatch mousemove) moves ++ [Dispatch mouseup up])
          (step (Dispatch mousedown (MouseEvent cx cy)) w)).
  rewrite run_app.
  pose proof (step_settled (Dispatch mousedown (MouseEvent cx cy)) w Hs) as Hs1.
  rewrite (begin_commit w mousedown (MouseEvent cx cy) c cx cy Hs Ha Hc eq_refl eq_refl),
    Hd in *.
  destruct (moves_keep moves _ Hs1 eq_refl eq_refl) as (Hs2 & Ha2 & Hd2 & Hc2 & Hb2 & Ho2).
  match goal with |- context [run (map _ moves) ?v] => set (w1 := v) in * end.
  set (w2 := run (map (Dispatch mousemove) moves) w1) in *.
  cbn [run fold_left].
  assert (E : step (Dispatch mouseup up) w2 = handle (fun _ => stopDrawing) w2).
  { cbn [step]. rewrite Ha2. reflexivity. }
  assert (Hblank : surface (step (Dispatch mouseup up) w2) = [])
    by (apply settled_blank, step_settled, Hs2).
  split; [|split; [|split; [|split]]]; try exact Hblank;
    rewrite E, stop_commit, Hd2;
    cbn [outbox state reducer isDrawing currentColor brushSize];
    solve [assumption | reflexivity].
Qed.

Lemma X10_gesture_witness :
  outbox (run (gesture 10 10 [MouseEvent 20 20; TouchEvent []; MouseEvent 30 5]
                 (MouseEvent 30 5)) (whiteboard scaledDown))
  = completionPosts.
Proof.
  exact (proj1 (X10_gesture (whiteboard scaledDown) 10 10
                  [MouseEvent 20 20; TouchEvent []; MouseEvent 30 5] (MouseEvent 30 5)
                  (reach_mount _ _) eq_refl eq_refl)).
Defined.

(** X11. The set-up effect.  Without a canvas, or on a canvas that gives
    no 2D context, it returns early: the canvas keeps its buffer size and
    no listener is attached.  Otherwise the canvas has the buffer size of
    the props, its context is the default one with round cap and join on
    a blank bitmap, whatever size, settings and content it had, and the
    listeners are on.  It writes no state cell and posts nothing, and
    running it a second time changes nothing. *)
Theorem X11_setup_effect (p : Props) (h : Heap) :
  (contextOf h = None ->
   canvasRef (setUp p h) = canvasRef h /\ listening (setUp p h) = false)
  /\ (forall c k,
        canvasRef h = Some c -> Canvas.context2d c = Some k ->
        canvasRef (setUp p h)
        = Some {| Canvas.width := reflected 300 (p_width p);
                  Canvas.height := reflected 150 (p_height p);
                  Canvas.boundingClientRect := Canvas.boundingClientRect c;
                  Canvas.context2d :=
                    Some {| strokeStyle := "#000000"; lineWidth := 1;
                            lineCap := round; lineJoin := join_round;
                            path := []; bitmap := [] |} |}
        /\ listening (setUp p h) = true)
  /\ queue (setUp p h) = queue h
  /\ posted (setUp p h) = posted h
  /\ setUp p (setUp p h) = setUp p h.
Proof.
  unfold setUp. rewrite !setup_spec. cbn [heapOf].
  unfold setupResult, contextOf.
  destruct h as [[[cw ch cr [k|]]|] hl hd hq hp]; cbn;
    (split; [intros H; try discriminate H; split; reflexivity|]);
    (split; [intros c0 k0 H1 H2; try discriminate H1;
             injection H1 as <-; try discriminate H2; split; reflexivity|]);
    repeat split; reflexivity.
Qed.

Lemma X11_setup_effect_witness :
  option_map Canvas.width
    (canvasRef (setUp (destructure noProps) (enter inked))) = Some 800
  /\ option_map Canvas.context2d
       (canvasRef (setUp (destructure noProps) (enter inked)))
     = Some (Some readyContext).
Proof.
  destruct (proj1 (proj2 (X11_setup_effect (destructure noProps) (enter inked)))
              {| Canvas.width := 800; Canvas.height := 600;
                 Canvas.boundingClientRect := fullSize;
                 Canvas.context2d := Some (set_bitmap [redStroke] readyContext) |}
              (set_bitmap [redStroke] readyContext))
    as [Hc _]; [vm_compute; reflexivity|reflexivity|].
  rewrite Hc. split; [vm_compute|]; reflexivity.
Defined.

(** * Without a surface *)

Section Unavailable.

Lemma settled_no_listeners w :
  settled w -> contextOf (enter w) = None -> attached w = false.
Proof.
  unfold settled, contextOf. cbn [enter canvasRef].
  destruct (element w) as [[cw ch cr [k|]]|]; cbn; intros Hs Hk;
    [discriminate Hk|exact Hs|exact Hs].
Qed.

Lemma setupResult_keeps_canvas p h :
  canvasRef h <> None -> canvasRef (setupResult p h) <> None.
Proof.
  unfold setupResult, contextOf.
  destruct h as [[[cw ch cr [k|]]|] hl hd hq hp]; cbn; congruence.
Qed.

(** No callback takes the canvas from behind the ref. *)
Lemma callback_keeps_canvas a w k :
  callbackOf a w = Some k -> element w <> None ->
  canvasRef (heapOf (k (state w) (enter w))) <> None.
Proof.
  intros Hk Hel. destruct a as [t e|i|n| |r]; cbn [callbackOf] in Hk.
  - destruct (attached w); [|discriminate]. injection Hk as <-.
    destruct t; cbn [listener];
      try (rewrite startDrawing_spec; cbn [enter canvasRef];
           destruct (element w) eqn:E; [|congruence];
           destruct (clientPoint e) as [[cx cy]|]; cbn; rewrite E; discriminate);
      try (rewrite stopDrawing_spec; exact Hel);
      (destruct (draw_outcome (state w) e (enter w)); cbn; first [exact Hel|discriminate]).
  - destruct (nth_error colors i); [|discriminate]. injection Hk as <-. exact Hel.
  - injection Hk as <-. exact Hel.
  - injection Hk as <-.
    destruct (contextOf (enter w)) as [k0|] eqn:Hc.
    + unfold contextOf in Hc. cbn [enter canvasRef] in Hc.
      destruct (element w) as [c|] eqn:He; [|discriminate].
      rewrite (clearCanvas_with_context (enter w) c k0
                 ltac:(cbn [enter canvasRef]; exact He) Hc).
      cbn. discriminate.
    + rewrite (clearCanvas_without_context _ Hc). exact Hel.
  - discriminate.
Qed.

Lemma step_keeps_element a w : element w <> None -> element (step a w) <> None.
Proof.
  intros Hel. destruct (callbackOf a w) as [k|] eqn:Hk.
  - rewrite (step_callback a w k Hk). unfold handle. rewrite commit_spec. cbv zeta.
    cbn [element].
    pose proof (callback_keeps_canvas a w k Hk Hel) as Hc.
    destruct (drawChanged (state w) (queue (heapOf (k (state w) (enter w)))));
      [apply setupResult_keeps_canvas|]; exact Hc.
  - destruct a as [t e|i|n| |r]; cbn [callbackOf step] in *.
    + destruct (attached w); [discriminate|exact Hel].
    + destruct (nth_error colors i); [discriminate|exact Hel].
    + discriminate.
    + discriminate.
    + cbn [element]. destruct (element w); cbn; congruence.
Qed.

(** A reachable world with no canvas behind the ref was mounted without
    one. *)
Lemma reachable_unmounted w : reachable w -> element w = None -> inert w.
Proof.
  induction 1 as [p el|a w Hw IH]; intros Hel.
  - apply mount_inert. destruct el as [[cw ch cr [k|]]|]; [discriminate Hel| |];
      reflexivity.
  - apply step_inert, IH.
    destruct (element w) eqn:E; [|reflexivity].
    exfalso. apply (step_keeps_element a w); [rewrite E; discriminate|exact Hel].
Qed.

End Unavailable.

(** C3. Without a 2D context (no canvas behind the ref, or a canvas that
    gives none) every operation that needs the surface is a silent no-op.
    As callbacks, in any heap: [draw] and [clearCanvas] return without an
    error, draw nothing, call no setter and post nothing ([draw] still
    calls [preventDefault] when the session is active), and with no
    canvas [getPosition] returns [(0, 0)] and changes nothing.  As
    operations of a mounted component, in every world it can reach: no
    listener is on a canvas, so every pointer and touch event (begin,
    extend and end stroke) leaves the world as it is, and so does the
    Clear Canvas button. *)
Theorem C3_no_surface :
  (forall (h : Heap) (s : State) (e : Event),
      contextOf h = None ->
      draw s e h = Normal tt (if isDrawing s then set_defaultPrevented true h else h)
      /\ clearCanvas h = Normal tt h
      /\ (canvasRef h = None -> getPosition e h = Normal {| x := 0; y := 0 |} h))
  /\ (forall w : World,
        reachable w -> contextOf (enter w) = None ->
        attached w = false
        /\ (forall t e, step (Dispatch t e) w = w)
        /\ step ClickClear w = w).
Proof.
  split.
  - intros h s e Hk. split; [|split].
    + destruct (isDrawing s) eqn:Hs.
      * apply draw_without_context; assumption.
      * apply draw_idle; assumption.
    + apply clearCanvas_without_context; assumption.
    + intros Hc. rewrite getPosition_spec, Hc. reflexivity.
  - intros w Hr Hk.
    pose proof (settled_no_listeners w (reachable_is_settled w Hr) Hk) as Ha.
    split; [exact Ha|]. split.
    + intros t e. cbn [step]. rewrite Ha. reflexivity.
    + cbn [step]. unfold handle. rewrite (clearCanvas_without_context _ Hk).
      apply commit_nothing; reflexivity.
Qed.

Lemma C3_no_surface_witness :
  reachable (step (ClickColor 4) contextless)
  /\ contextOf (enter (step (ClickColor 4) contextless)) = None
  /\ step (Dispatch touchstart (TouchEvent [Touch.make 30 40]))
       (step (ClickColor 4) contextless)
     = step (ClickColor 4) contextless
  /\ step ClickClear (step (ClickColor 4) contextless) = step (ClickColor 4) contextless
  /\ clearCanvas (enter unmounted) = Normal tt (enter unmounted).
Proof.
  assert (R : reachable (step (ClickColor 4) contextless))
    by (apply reach_step, reach_mount).
  destruct C3_no_surface as [Hcb Hw].
  destruct (Hw _ R eq_refl) as (_ & Hev & Hclear).
  split; [exact R|]. split; [reflexivity|]. split; [apply Hev|]. split; [exact Hclear|].
  apply (Hcb (enter unmounted) initialState (MouseEvent 0 0) eq_refl).
Defined.

(** C9, as stated, fails: with no canvas behind the ref no listener was
    added, so a pointer-down (mouse or touch) reaches no callback; the
    session stays idle and nothing is posted. *)
Lemma C9_pointer_down_without_canvas :
  element unmounted = None
  /\ isDrawing (state unmounted) = false
  /\ step (Dispatch mousedown (MouseEvent 5 5)) unmounted = unmounted
  /\ step (Dispatch touchstart (TouchEvent [Touch.make 5 5])) unmounted = unmounted
  /\ isDrawing (state (step (Dispatch mousedown (MouseEvent 5 5)) unmounted)) = false
  /\ outbox (step (Dispatch mousedown (MouseEvent 5 5)) unmounted) = [].
Proof. repeat split; reflexivity. Qed.

(** C9, amended. With no canvas behind the ref, [getPosition] returns
    [(0, 0)] without an error, for every event.  The listener of
    [mousedown] and [touchstart] has no guard of its own: run in such a
    heap it prevents the default and calls [setIsDrawing(true)] and
    [setLastPos] of [(0, 0)].  But it does not run: in every world a
    mounted component can reach with no canvas behind the ref, no
    listener is attached, every event on the canvas leaves the world as
    it is, the session is idle, the anchor is still the initial one and
    no completion message has been posted. *)
Theorem C9_unmounted_sentinel (w : World) (e : Event) :
  reachable w -> element w = None ->
  getPosition e (enter w) = Normal {| x := 0; y := 0 |} (enter w)
  /\ (forall t, beginsStroke t = true ->
        listener (state w) t e (enter w) =
        Normal tt (enqueue (setLastPos {| x := 0; y := 0 |})
                     (enqueue (setIsDrawing true) (set_defaultPrevented true (enter w)))))
  /\ attached w = false
  /\ (forall t, step (Dispatch t e) w = w)
  /\ isDrawing (state w) = false
  /\ lastPos (state w) = {| x := 0; y := 0 |}
  /\ outbox w = [].
Proof.
  intros Hr Hel.
  destruct (reachable_unmounted w Hr Hel) as (Hk & Ha & Hd & Hl & Ho).
  split; [|split; [|split; [|split; [|split; [|split]]]]]; try assumption.
  - rewrite getPosition_spec. cbn [enter canvasRef]. rewrite Hel. reflexivity.
  - intros t Ht. rewrite (begins_listener (state w) t e Ht), startDrawing_spec.
    cbn [enter canvasRef]. rewrite Hel. reflexivity.
  - intros t. cbn [step]. rewrite Ha. reflexivity.
Qed.

Lemma C9_unmounted_sentinel_witness :
  reachable (run [Slide 2; Dispatch mousedown (MouseEvent 5 5)] unmounted)
  /\ element (run [Slide 2; Dispatch mousedown (MouseEvent 5 5)] unmounted) = None
  /\ getPosition (TouchEvent [])
       (enter (run [Slide 2; Dispatch mousedown (MouseEvent 5 5)] unmounted))
     = Normal {| x := 0; y := 0 |}
         (enter (run [Slide 2; Dispatch mousedown (MouseEvent 5 5)] unmounted))
  /\ outbox (run [Slide 2; Dispatch mousedown (MouseEvent 5 5)] unmounted) = [].
Proof.
  assert (R : reachable (run [Slide 2; Dispatch mousedown (MouseEvent 5 5)] unmounted))
    by (unfold run; cbn [fold_left]; do 2 apply reach_step; apply reach_mount).
  destruct (C9_unmounted_sentinel _ (TouchEvent []) R eq_refl)
    as (Hp & _ & _ & _ & _ & _ & Ho).
  split; [exact R|]. split; [reflexivity|]. split; [exact Hp|exact Ho].
Defined.

(** C10, as stated, fails when a buffer dimension is 0.  On the
    whiteboard of width 0, laid out 4 by 604, a touch that began on the
    canvas and moved to client (10, 100), right of the box, resolves to
    x = 0, y = 99.3..., inside [0, 0] x [0, 600], and that is the anchor
    the move records. *)
Lemma C10_outside_event_resolves_inside :
  option_map Canvas.width (element zeroWide) = Some 0
  /\ option_map Canvas.height (element zeroWide) = Some 600
  /\ option_map Canvas.boundingClientRect (element zeroWide) = Some bordersOnly
  /\ (DOMRect.left bordersOnly + DOMRect.width bordersOnly <? 10) = true
  /\ getPosition (TouchEvent [Touch.make 10 100]) (enter zeroWide)
     = Normal {| x := 0; y := 100 * (600 / 604) |} (enter zeroWide)
  /\ (0 <=? 100 * (600 / 604)) && (100 * (600 / 604) <=? 600) = true
  /\ lastPos (state (run [Dispatch touchstart (TouchEvent [Touch.make 2 100]);
                          Dispatch touchmove (TouchEvent [Touch.make 10 100])] zeroWide))
     = {| x := 0; y := 100 * (600 / 604) |}.
Proof. repeat split; vm_compute; reflexivity. Qed.

(** C10, amended. [getPosition] and [draw] do not clamp.  For an event
    that carries a point, on a canvas behind the ref, the position is the
    offset of the point from the origin of the box times the scale
    factor, per axis, whatever its size or sign.  Where that offset is
    finite and negative and the scale factor is not negative, the
    coordinate is never positive; where the scale factor is a zero (a
    buffer dimension of 0) every finite offset gives a zero.  With an
    active session and a 2D context, [draw] strokes to that position and
    queues it as the new anchor; the stroke is the segment from the
    anchor to it when both are finite and the brush size is a positive
    finite number. *)
Theorem C10_positions_not_clamped (h : Heap) (c : Canvas.t) (e : Event)
        (cx cy : number) :
  canvasRef h = Some c -> clientPoint e = Some (cx, cy) ->
  getPosition e h =
  Normal {| x := (cx - DOMRect.left (Canvas.boundingClientRect c)) * scaleX c;
            y := (cy - DOMRect.top (Canvas.boundingClientRect c)) * scaleY c |} h
  /\ ((cx - DOMRect.left (Canvas.boundingClientRect c) <? 0) = true ->
      isFinite (cx - DOMRect.left (Canvas.boundingClientRect c)) = true ->
      (0 <=? scaleX c) = true -> (x (toSurface c cx cy) <=? 0) = true)
  /\ ((cy - DOMRect.top (Canvas.boundingClientRect c) <? 0) = true ->
      isFinite (cy - DOMRect.top (Canvas.boundingClientRect c)) = true ->
      (0 <=? scaleY c) = true -> (y (toSurface c cx cy) <=? 0) = true)
  /\ (isFinite (cx - DOMRect.left (Canvas.boundingClientRect c)) = true ->
      (scaleX c =? 0) = true -> (x (toSurface c cx cy) =? 0) = true)
  /\ (isFinite (cy - DOMRect.top (Canvas.boundingClientRect c)) = true ->
      (scaleY c =? 0) = true -> (y (toSurface c cx cy) =? 0) = true)
  /\ (forall s k,
        isDrawing s = true -> Canvas.context2d c = Some k ->
        draw s e h =
        Normal tt
          (enqueue (setLastPos (toSurface c cx cy))
             (set_canvasRef
                (Some (set_context (strokeTo s (toSurface c cx cy) k) c))
                (set_defaultPrevented true h)))
        /\ (finitePosition (lastPos s) = true ->
            finitePosition (toSurface c cx cy) = true ->
            isFinite (brushSize s) && (0 <? brushSize s) = true ->
            bitmap (strokeTo s (toSurface c cx cy) k) =
            bitmap k ++
            [segment (lastPos s) (toSurface c cx cy) (currentColor s) (brushSize s)])).
Proof.
  intros Hc He. split; [|split; [|split; [|split; [|split]]]].
  - rewrite getPosition_spec, Hc, He. reflexivity.
  - intros Hd Hf Hs. apply mul_neg_nonneg; assumption.
  - intros Hd Hf Hs. apply mul_neg_nonneg; assumption.
  - intros Hf Hs. apply mul_zero_r; assumption.
  - intros Hf Hs. apply mul_zero_r; assumption.
  - intros s k Hs Hk. split.
    + apply draw_active; auto.
    + intros Ha Hp Hb. rewrite (strokeTo_segment s _ k Ha Hp Hb). reflexivity.
Qed.

Lemma C10_positions_not_clamped_witness :
  canvasRef (enter (whiteboard scaledDown))
  = Some (sized (destructure noProps) (createCanvas scaledDown true))
  /\ (x (toSurface (sized (destructure noProps) (createCanvas scaledDown true))
           (-5) 700) <=? 0) = true
  /\ (x (toSurface (sized (destructure noProps) (createCanvas scaledDown true))
           (-5) 700) <? 0) = true
  /\ (600 <? y (toSurface (sized (destructure noProps) (createCanvas scaledDown true))
                  (-5) 700)) = true.
Proof.
  assert (E : canvasRef (enter (whiteboard scaledDown))
              = Some (sized (destructure noProps) (createCanvas scaledDown true)))
    by reflexivity.
  split; [exact E|]. split; [|split; vm_compute; reflexivity].
  apply (proj1 (proj2 (C10_positions_not_clamped
                         (enter (whiteboard scaledDown)) _
                         (TouchEvent [Touch.make (-5) 700]) (-5) 700 E eq_refl)));
    vm_compute; reflexivity.
Defined.

(** Why nothing stronger is said of events right of or below the box:
    the product is rounded.  On the default buffer rendered 390 by 292.5,
    the first binary64 number right of the right edge resolves to x = 800
    exactly. *)
Lemma rounding_reaches_the_edge :
  (DOMRect.left scaledDown + DOMRect.width scaledDown <? next_up 390) = true
  /\ x (toSurface (sized (destructure noProps) (createCanvas scaledDown true))
          (next_up 390) 100) = 800.
Proof. split; vm_compute; reflexivity. Qed.
